(** * check-tls-cert: argument validation and certificate-expiry decision

    A shallow embedding of [cmd/check-tls-cert/main.go]: the two callbacks
    handed to the Sensu check framework, [checkArgs] and [executeCheck],
    over the two process-wide variables [plugin] and [tlsConfig].

    The outside world (the file holding the CA bundle, the TLS peer, the
    clock) is a record of functions, [World]; every effect the callbacks
    perform is appended to a trace of [Event]s, so that what was dialled,
    with which TLS configuration, and in which order, can be stated. *)

From Stdlib Require Import ZArith List String Ascii Bool Lia.
From Stdlib Require Import DecimalString.
From Stdlib Require Import Floats.SpecFloat.
Import ListNotations.

Local Open Scope string_scope.
Local Open Scope Z_scope.

(** ** Regular expressions

    The hostname is checked by [validate.Var(plugin.Host, fqdn)] of
    go-playground/validator, which tests the value against one regular
    expression.  The expression is kept as a syntax tree and matched by
    derivatives, so that [fqdnRegexRFC1123] below can be read against the
    pattern text. *)
Module Regexp.

(** A character class is a list of inclusive ranges. *)
Definition Class := list (ascii * ascii).

Inductive re : Type :=
| Fail                                  (* matches nothing *)
| Eps                                   (* matches the empty string *)
| Chr (cls : Class)                     (* [...] *)
| Cat (r1 r2 : re)                      (* r1 r2 *)
| Star (r : re)                         (* r* and r*? *)
| Rep (r : re) (lo hi : nat)            (* r{lo,hi} *)
| Opt (r : re).                         (* r? *)

Definition in_range (c : ascii) (rg : ascii * ascii) : bool :=
  (nat_of_ascii (fst rg) <=? nat_of_ascii c)%nat
  && (nat_of_ascii c <=? nat_of_ascii (snd rg))%nat.

Definition in_class (c : ascii) (cls : Class) : bool :=
  existsb (in_range c) cls.

Fixpoint nullable (r : re) : bool :=
  match r with
  | Fail => false
  | Eps => true
  | Chr _ => false
  | Cat r1 r2 => nullable r1 && nullable r2
  | Star _ => true
  | Rep r lo _ => Nat.eqb lo 0 || nullable r
  | Opt _ => true
  end.

(** Smart constructors keep derivatives small. *)
Definition cat (r1 r2 : re) : re :=
  match r1, r2 with
  | Fail, _ => Fail
  | _, Fail => Fail
  | Eps, _ => r2
  | _, _ => Cat r1 r2
  end.

(** [deriv c r] matches [s] exactly when [r] matches [c :: s].  The
    union needed for [Cat] with a nullable head is carried as a list of
    alternatives by [derivs] below, so [deriv] itself returns a list. *)
Fixpoint deriv (c : ascii) (r : re) : list re :=
  match r with
  | Fail => []
  | Eps => []
  | Chr cls => if in_class c cls then [Eps] else []
  | Cat r1 r2 =>
      map (fun d => cat d r2) (deriv c r1)
      ++ (if nullable r1 then deriv c r2 else [])
  | Star r1 => map (fun d => cat d (Star r1)) (deriv c r1)
  | Rep r1 lo hi =>
      match hi with
      | O => []
      | S hi' => map (fun d => cat d (Rep r1 (Nat.pred lo) hi')) (deriv c r1)
      end
  | Opt r1 => deriv c r1
  end.

Fixpoint re_eqb (a b : re) : bool :=
  match a, b with
  | Fail, Fail => true
  | Eps, Eps => true
  | Chr c1, Chr c2 =>
      (fix eq (x y : Class) : bool :=
         match x, y with
         | [], [] => true
         | (a1, a2) :: x', (b1, b2) :: y' =>
             Ascii.eqb a1 b1 && Ascii.eqb a2 b2 && eq x' y'
         | _, _ => false
         end) c1 c2
  | Cat a1 a2, Cat b1 b2 => re_eqb a1 b1 && re_eqb a2 b2
  | Star a1, Star b1 => re_eqb a1 b1
  | Rep a1 l1 h1, Rep b1 l2 h2 => re_eqb a1 b1 && Nat.eqb l1 l2 && Nat.eqb h1 h2
  | Opt a1, Opt b1 => re_eqb a1 b1
  | _, _ => false
  end.

Fixpoint insert_re (r : re) (l : list re) : list re :=
  match l with
  | [] => [r]
  | x :: l' => if re_eqb r x then l else x :: insert_re r l'
  end.

(** One step of the matcher on a set of alternatives. *)
Definition derivs (c : ascii) (rs : list re) : list re :=
  fold_right insert_re [] (flat_map (deriv c) rs).

Fixpoint run (rs : list re) (s : string) : list re :=
  match s with
  | EmptyString => rs
  | String c s' => run (derivs c rs) s'
  end.

(** Anchored match, as for a pattern written [^...$]. *)
Definition MatchString (r : re) (s : string) : bool :=
  existsb nullable (run [r] s).

End Regexp.

(** ** The [fqdn] validation tag *)
Module Validator.
Import Regexp.

Definition alnum : Class := [("a", "z"); ("A", "Z"); ("0", "9")]%char.
Definition alnum_hyphen : Class :=
  [("a", "z"); ("A", "Z"); ("0", "9"); ("-", "-")]%char.
Definition alpha : Class := [("a", "z"); ("A", "Z")]%char.
Definition dot : re := Chr [(".", ".")]%char.

(** [^([a-zA-Z0-9]{1}[a-zA-Z0-9-]{0,62})(\.[a-zA-Z0-9]{1}[a-zA-Z0-9-]{0,62})*?(\.[a-zA-Z]{1}[a-zA-Z0-9]{0,62})\.?$] *)
Definition fqdnRegexRFC1123 : re :=
  Cat (Cat (Rep (Chr alnum) 1 1) (Rep (Chr alnum_hyphen) 0 62))
 (Cat (Star (Cat dot (Cat (Rep (Chr alnum) 1 1) (Rep (Chr alnum_hyphen) 0 62))))
 (Cat (Cat dot (Cat (Rep (Chr alpha) 1 1) (Rep (Chr alnum) 0 62)))
      (Opt dot))).

(** [isFQDN]: the empty value is rejected, any other value is matched
    against the pattern. *)
Definition isFQDN (val : string) : bool :=
  if String.eqb val "" then false else MatchString fqdnRegexRFC1123 val.

(** [validate.Var(field, tag)] for the one tag the plugin uses; the
    result is the error, [None] for [nil]. *)
Definition Var (field : string) : option string :=
  if isFQDN field then None
  else Some "Key: '' Error:Field validation for '' failed on the 'fqdn' tag".

End Validator.


(** ** Go's [time] package, as far as the check uses it

    An instant is a number of nanoseconds since the Unix epoch.  The
    certificate's [NotAfter] carries no monotonic clock reading, so [Sub]
    and [After] compare wall-clock instants. *)
Module GoTime.

Definition Time := Z.

(** [Duration] is an [int64] count of nanoseconds. *)
Definition Duration := Z.
Definition minDuration : Duration := - 2 ^ 63.
Definition maxDuration : Duration := 2 ^ 63 - 1.

Definition Nanosecond : Duration := 1.
Definition Microsecond : Duration := 1000 * Nanosecond.
Definition Millisecond : Duration := 1000 * Microsecond.
Definition Second : Duration := 1000 * Millisecond.
Definition Minute : Duration := 60 * Second.
Definition Hour : Duration := 60 * Minute.

(** [t.Sub(u)]: the difference, or the nearest representable duration
    when the difference does not fit. *)
Definition Sub (t u : Time) : Duration :=
  let d := t - u in
  if d <? minDuration then minDuration
  else if maxDuration <? d then maxDuration
  else d.

(** [t.After(u)]. *)
Definition After (t u : Time) : bool := u <? t.

(** *** Time zones

    [loc.lookup(sec)]: the offset from UTC, in seconds east, of the zone
    in use at the Unix second [sec], and the Unix seconds between which
    that zone is in use. *)
Record Lookup := { lookup_offset : Z; lookup_start : Z; lookup_end : Z }.

(** A [*Location] is used through its [lookup] only. *)
Record Location := { lookup : Z -> Lookup }.

(** [time.UTC]: offset zero at every instant. *)
Definition UTC : Location :=
  {| lookup := fun _ =>
       {| lookup_offset := 0; lookup_start := - 2 ^ 63; lookup_end := 2 ^ 63 - 1 |} |}.

(** The offsets of a zone stay between [lo] and [hi] seconds. *)
Definition offsets_within (loc : Location) (lo hi : Z) : Prop :=
  forall u, lo <= lookup_offset (lookup loc u) <= hi.

(** Arithmetic on [int64] and [uint64] wraps around; [int64 x] is the
    [int64] with the bits of [x]. *)
Definition int64 (x : Z) : Z := (x + 2 ^ 63) mod 2 ^ 64 - 2 ^ 63.

Definition secondsPerDay : Z := 86400.

(** The seconds from January 1 of year 1, where a [Time] counts from, to
    the Unix epoch. *)
Definition unixToInternal : Z := 62135596800.

(** The end of [time.Date]: the seconds [unix] were computed from a civil
    date and a clock as if in UTC, and are moved to the zone [loc]:
    [_, offset, start, end, _ := l.lookup(unix)
     if offset != 0 {
       utc := unix - int64(offset)
       if utc < start || utc >= end { _, offset, _, _, _ = l.lookup(utc) }
       unix -= int64(offset)
     }]. *)
Definition Date_zone (loc : Location) (unix : Z) : Z :=
  let z := lookup loc unix in
  if lookup_offset z =? 0 then unix
  else
    let utc := int64 (unix - lookup_offset z) in
    let offset :=
      if (utc <? lookup_start z) || (lookup_end z <=? utc)
      then lookup_offset (lookup loc utc)
      else lookup_offset z in
    int64 (unix - offset).

(** [t.AddDate(0, 0, days)] for a [t] in the zone [loc]:
    [year, month, day := t.Date(); hour, min, sec := t.Clock()
     return Date(year, month, day+days, hour, min, sec, int(t.nsec()), t.Location())].
    [t.Date()] and [t.Clock()] read the civil date and the clock off the
    seconds of [t] moved by the offset in use at [t]; [Date] counts the
    days of its civil date, [day+days] among them, multiplies by
    [secondsPerDay] and adds the clock, all in [uint64], and converts to
    [int64].  Taking a date apart and putting it together again gives the
    seconds back, so what [Date] reaches are the seconds of [t] in its zone
    plus [days * secondsPerDay], with the bits of an [int64].  [Date] then
    moves them to the zone, and the result is stored as seconds since
    year 1, an [int64] again, next to the nanoseconds of [t].  The result
    is given, like every instant here, in nanoseconds since the Unix
    epoch. *)
Definition AddDate_days (loc : Location) (t : Time) (days : Z) : Time :=
  let sec := t / Second in
  let nsec := t mod Second in
  let abs := int64 (sec + lookup_offset (lookup loc sec)) in
  let unix := Date_zone loc (int64 (abs + days * secondsPerDay)) in
  (int64 (unix + unixToInternal) - unixToInternal) * Second + nsec.

(** *** binary64 *)
Definition prec : Z := 53.
Definition emax : Z := 1024.
Definition float64 := spec_float.

(** [float64(n)] for an integer [n]: round to nearest even. *)
Definition float64_of_int (n : Z) : float64 :=
  binary_normalize prec emax n 0 false.

Definition f_add : float64 -> float64 -> float64 := SFadd prec emax.
Definition f_div : float64 -> float64 -> float64 := SFdiv prec emax.

(** [int64(f)]: the fractional part is discarded (truncation towards
    zero).  For an infinity or a NaN, which no duration produces, the
    amd64 result is taken. *)
Definition int64_of_float (f : float64) : Z :=
  match f with
  | S754_zero _ => 0
  | S754_finite s m e =>
      let a := if 0 <=? e then Zpos m * 2 ^ e else Zpos m / 2 ^ (- e) in
      if s then - a else a
  | S754_infinity _ | S754_nan => - 2 ^ 63
  end.

(** [d.Hours()]:
    [hour := d / Hour; nsec := d % Hour;
     return float64(hour) + float64(nsec)/(60*60*1e9)]. *)
Definition Hours (d : Duration) : float64 :=
  let hour := Z.quot d Hour in
  let nsec := Z.rem d Hour in
  f_add (float64_of_int hour)
        (f_div (float64_of_int nsec) (float64_of_int (60 * 60 * 1000000000))).

End GoTime.
Import GoTime.

(** ** The libraries' data the check touches *)

(** A Go [error] is represented by its message, [err.Error()]. *)
Definition error := string.

Inductive result (A : Type) : Type :=
| Ok (a : A)
| Err (e : error).
Arguments Ok {A} a.
Arguments Err {A} e.

Module x509.
Record Certificate := { Subject : string; NotBefore : GoTime.Time; NotAfter : GoTime.Time }.
Definition CertPool := list Certificate.
End x509.

Module tls.
(** [tls.Config]; a nil [RootCAs] selects the host's root CA set. *)
Record Config := { RootCAs : option x509.CertPool; InsecureSkipVerify : bool }.
(** The zero value [tls.Config{}]. *)
Definition zero : Config := {| RootCAs := None; InsecureSkipVerify := false |}.
Record ConnectionState := { PeerCertificates : list x509.Certificate }.
Record Conn := { State : ConnectionState }.
End tls.

Module sensu.
Definition CheckStateOK : Z := 0.
Definition CheckStateWarning : Z := 1.
Definition CheckStateCritical : Z := 2.
Record PluginConfig := { Name : string; Short : string; Keyspace : string }.
End sensu.

(** ** The plugin's configuration and its process-wide variables

    The [int] fields hold any integer the command line gives; the ports
    and thresholds are compared and printed as they are, and where a
    threshold is computed with, in [AddDate_days], the wrap-around of the
    64-bit arithmetic is written out there. *)

Record Config := {
  PluginConfig : sensu.PluginConfig;
  Host : string;
  TrustedCAFile : string;
  InsecureSkipVerify : bool;
  Port : Z;
  Timeout : Z;
  Warning : Z;
  Critical : Z
}.

Record Globals := { plugin : Config; tlsConfig : tls.Config }.

(** ** The outside world and the effects *)

Record World := {
  (** [corev2.LoadCACerts(path)] on the file system of the run. *)
  LoadCACerts : string -> result x509.CertPool;
  (** [tls.Dial(network, addr, config)] on the network of the run. *)
  Dial : string -> string -> tls.Config -> result tls.Conn;
  (** [time.Now()]. *)
  Now : GoTime.Time;
  (** [time.Local], the zone [time.Now()] is in. *)
  Local : GoTime.Location
}.

Inductive Event :=
| EvLoadCACerts (path : string)
| EvDial (network addr : string) (config : tls.Config)
| EvClose
| EvPrintf (out : string).

(** A statement either falls through to the next one, returns from the
    enclosing function, or panics. *)
Inductive Step (R A : Type) : Type :=
| Next (a : A)
| Return (r : R)
| Panic (msg : string).
Arguments Next {R A} a.
Arguments Return {R A} r.
Arguments Panic {R A} msg.

Definition Stmt (R A : Type) : Type := Globals -> Step R A * Globals * list Event.

Definition ret {R A} (a : A) : Stmt R A := fun g => (Next a, g, []).

Definition bind {R A B} (m : Stmt R A) (k : A -> Stmt R B) : Stmt R B :=
  fun g =>
    match m g with
    | (Next a, g1, t1) => let '(s, g2, t2) := k a g1 in (s, g2, (t1 ++ t2)%list)
    | (Return r, g1, t1) => (Return r, g1, t1)
    | (Panic msg, g1, t1) => (Panic msg, g1, t1)
    end.

Notation "x <- m ;; k" := (bind m (fun x => k))
  (at level 61, m at next level, right associativity).
Notation "m ;; k" := (bind m (fun _ => k))
  (at level 61, right associativity).

Definition return_ {R A} (r : R) : Stmt R A := fun g => (Return r, g, []).
Definition panic {R A} (msg : string) : Stmt R A := fun g => (Panic msg, g, []).
Definition emit {R} (e : Event) : Stmt R unit := fun g => (Next tt, g, [e]).
Definition when {R} (b : bool) (body : Stmt R unit) : Stmt R unit :=
  if b then body else ret tt.

Definition get_plugin {R} : Stmt R Config := fun g => (Next (plugin g), g, []).
Definition get_tlsConfig {R} : Stmt R tls.Config := fun g => (Next (tlsConfig g), g, []).

(** [tlsConfig.RootCAs = pool] *)
Definition set_RootCAs {R} (pool : x509.CertPool) : Stmt R unit :=
  fun g =>
    (Next tt,
     {| plugin := plugin g;
        tlsConfig := {| tls.RootCAs := Some pool;
                        tls.InsecureSkipVerify := tls.InsecureSkipVerify (tlsConfig g) |} |},
     []).

(** [tlsConfig.InsecureSkipVerify = b] *)
Definition set_InsecureSkipVerify {R} (b : bool) : Stmt R unit :=
  fun g =>
    (Next tt,
     {| plugin := plugin g;
        tlsConfig := {| tls.RootCAs := tls.RootCAs (tlsConfig g);
                        tls.InsecureSkipVerify := b |} |},
     []).

(** [defer d] followed by the rest of the function body: [d] runs when the
    rest is left, whether by return or by panic. *)
Definition defer {R A} (d : Stmt R unit) (rest : Stmt R A) : Stmt R A :=
  fun g =>
    let '(s, g1, t1) := rest g in
    let '(_, g2, t2) := d g1 in
    (s, g2, (t1 ++ t2)%list).

(** What a call of a function leaves behind. *)
Inductive Outcome (R : Type) : Type :=
| Returned (r : R)
| Panicked (msg : string).
Arguments Returned {R} r.
Arguments Panicked {R} msg.

Definition Func (R : Type) : Type := Globals -> Outcome R * Globals * list Event.

(** A function body ends in a [return], so it never falls through. *)
Definition func {R} (body : Stmt R Empty_set) : Func R :=
  fun g =>
    match body g with
    | (Next a, _, _) => match a with end
    | (Return r, g1, t) => (Returned r, g1, t)
    | (Panic msg, g1, t) => (Panicked msg, g1, t)
    end.

Definition corev2_LoadCACerts {R} (w : World) (path : string)
  : Stmt R (result x509.CertPool) :=
  emit (EvLoadCACerts path) ;; ret (LoadCACerts w path).

Definition tls_Dial {R} (w : World) (network addr : string) (config : tls.Config)
  : Stmt R (result tls.Conn) :=
  emit (EvDial network addr config) ;; ret (Dial w network addr config).

Definition conn_Close {R} (conn : tls.Conn) : Stmt R unit := emit EvClose.

(** [l[i]] on a slice: a run-time panic when [i] is out of range. *)
Definition index {R A} (l : list A) (i : nat) : Stmt R A :=
  match nth_error l i with
  | Some a => ret a
  | None => panic "runtime error: index out of range"
  end.

(** Decimal rendering of an integer, as [%v] and [fmt.Sprint] give it. *)
Definition itoa (z : Z) : string := NilZero.string_of_int (Z.to_int z).

Definition Printf {R} (out : string) : Stmt R unit := emit (EvPrintf out).

(** [fmt.Errorf(msg)] for a format without verbs. *)
Definition Errorf (msg : string) : option error := Some msg.

(** [fmt.Errorf("%v", err)]: a new error with the message of [err]. *)
Definition Errorf_v (err : error) : option error := Some err.

Definition newline : string := String (ascii_of_nat 10) "".

(** ** [checkArgs] *)
Definition checkArgs (w : World) : Func (Z * option error) := func (
  p <- get_plugin ;;
  when (Nat.eqb (String.length (Host p)) 0)
    (return_ (sensu.CheckStateWarning, Errorf "--hostname is required")) ;;
  let err := Validator.Var (Host p) in
  when (match err with Some _ => true | None => false end)
    (return_ (sensu.CheckStateWarning, Errorf "hostname is not a valid FQDN")) ;;
  when (Critical p <=? 0)
    (return_ (sensu.CheckStateWarning, Errorf "--critical is required")) ;;
  when (Warning p <=? 0)
    (return_ (sensu.CheckStateWarning, Errorf "--warning is required")) ;;
  when (Warning p <=? Critical p)
    (return_ (sensu.CheckStateWarning, Errorf "warning cannot be lower than Critical value")) ;;
  when (Nat.ltb 0 (String.length (TrustedCAFile p)))
    (r <- corev2_LoadCACerts w (TrustedCAFile p) ;;
     match r with
     | Err _ =>
         return_ (sensu.CheckStateWarning, Errorf "error loading specified CA file")
     | Ok caCertPool => set_RootCAs caCertPool
     end) ;;
  set_InsecureSkipVerify (InsecureSkipVerify p) ;;
  return_ (sensu.CheckStateOK, None)).

(** ** [executeCheck] *)
Definition executeCheck (w : World) : Func (Z * option error) := func (
  p <- get_plugin ;;
  let fqdn := Host p ++ ":" ++ itoa (Port p) in
  config <- get_tlsConfig ;;
  r <- tls_Dial w "tcp" fqdn config ;;
  match r with
  | Err err => return_ (sensu.CheckStateCritical, Errorf_v err)
  | Ok conn =>
    defer (conn_Close conn) (
      let timeNow := Now w in
      cert <- index (tls.PeerCertificates (tls.State conn)) 0 ;;
      let expiresInHours := int64_of_float (Hours (Sub (x509.NotAfter cert) timeNow)) in
      let expiresInDays := Z.quot expiresInHours 24 in
      when (After (AddDate_days (Local w) timeNow (Critical p)) (x509.NotAfter cert))
        (Printf ("critical: cert expires in " ++ itoa expiresInDays ++ " days") ;;
         return_ (sensu.CheckStateCritical, None)) ;;
      when (After (AddDate_days (Local w) timeNow (Warning p)) (x509.NotAfter cert))
        (Printf ("warning: cert expires in " ++ itoa expiresInDays ++ " days") ;;
         return_ (sensu.CheckStateWarning, None)) ;;
      Printf ("certificate for " ++ Host p ++ ":" ++ itoa (Port p)
              ++ " expires in " ++ itoa expiresInDays ++ " days" ++ newline) ;;
      return_ (sensu.CheckStateOK, None))
  end).

(** ** [main]

    [sensu.NewCheck(&plugin.PluginConfig, options, checkArgs, executeCheck,
    false).Execute()]: the framework calls the validation callback and,
    only when that returns no error, the execution callback.  How the
    framework words the answer on standard output and turns the status
    into an exit code is outside the plugin and is not modelled. *)
Definition main (w : World) : Func (Z * option error) :=
  fun g =>
    match checkArgs w g with
    | (Returned (_, None), g1, t1) =>
        let '(o, g2, t2) := executeCheck w g1 in (o, g2, (t1 ++ t2)%list)
    | refusal => refusal
    end.

(** ** The option table and the configuration it yields *)

Inductive OptionValue :=
| StringValue (s : string)
| BoolValue (b : bool)
| IntValue (n : Z).

(** The field of [plugin] an option's [Value] points at. *)
Inductive Field :=
| FHost | FInsecureSkipVerify | FTrustedCAFile | FWarning | FCritical | FPort.

Record PluginConfigOption := {
  Path : string;
  Argument : string;
  Shorthand : string;
  Default : OptionValue;
  Usage : string;
  Value : Field
}.

(** [options]; a [Default] left out in the source is the zero value. *)
Definition options : list PluginConfigOption := [
  {| Path := "hostname"; Argument := "hostname"; Shorthand := "";
     Default := StringValue "http://localhost:80/";
     Usage := "hostname to check"; Value := FHost |};
  {| Path := "insecure-skip-verify"; Argument := "insecure-skip-verify"; Shorthand := "i";
     Default := BoolValue false;
     Usage := "Skip TLS certificate verification (not recommended!)";
     Value := FInsecureSkipVerify |};
  {| Path := "trusted-ca-file"; Argument := "trusted-ca-file"; Shorthand := "t";
     Default := StringValue "";
     Usage := "TLS CA certificate bundle in PEM format"; Value := FTrustedCAFile |};
  {| Path := ""; Argument := "warning"; Shorthand := "w";
     Default := IntValue 0;
     Usage := "Number of days left"; Value := FWarning |};
  {| Path := ""; Argument := "critical"; Shorthand := "c";
     Default := IntValue 0;
     Usage := "Number of days left"; Value := FCritical |};
  {| Path := ""; Argument := "port"; Shorthand := "p";
     Default := IntValue 443;
     Usage := "TCP port to connect to, default 443"; Value := FPort |}
].

(** The initial value of [plugin]. *)
Definition plugin_init : Config := {|
  PluginConfig := {| sensu.Name := "check-tls-cert";
                     sensu.Short := "TLS expiry check";
                     sensu.Keyspace := "sensu.io/plugins/http-check/config" |};
  Host := ""; TrustedCAFile := ""; InsecureSkipVerify := false;
  Port := 0; Timeout := 0; Warning := 0; Critical := 0
|}.

(** What one invocation supplies, per option; [None] when the option is
    not given. *)
Record Supplied := {
  given_hostname : option string;
  given_insecure_skip_verify : option bool;
  given_trusted_ca_file : option string;
  given_warning : option Z;
  given_critical : option Z;
  given_port : option Z
}.

Definition supplied (a : Supplied) (f : Field) : option OptionValue :=
  match f with
  | FHost => option_map StringValue (given_hostname a)
  | FInsecureSkipVerify => option_map BoolValue (given_insecure_skip_verify a)
  | FTrustedCAFile => option_map StringValue (given_trusted_ca_file a)
  | FWarning => option_map IntValue (given_warning a)
  | FCritical => option_map IntValue (given_critical a)
  | FPort => option_map IntValue (given_port a)
  end.

(** Store a value through an option's [Value] pointer. *)
Definition assign (f : Field) (v : OptionValue) (c : Config) : Config :=
  match f, v with
  | FHost, StringValue s =>
      {| PluginConfig := PluginConfig c; Host := s; TrustedCAFile := TrustedCAFile c;
         InsecureSkipVerify := InsecureSkipVerify c; Port := Port c;
         Timeout := Timeout c; Warning := Warning c; Critical := Critical c |}
  | FInsecureSkipVerify, BoolValue b =>
      {| PluginConfig := PluginConfig c; Host := Host c; TrustedCAFile := TrustedCAFile c;
         InsecureSkipVerify := b; Port := Port c;
         Timeout := Timeout c; Warning := Warning c; Critical := Critical c |}
  | FTrustedCAFile, StringValue s =>
      {| PluginConfig := PluginConfig c; Host := Host c; TrustedCAFile := s;
         InsecureSkipVerify := InsecureSkipVerify c; Port := Port c;
         Timeout := Timeout c; Warning := Warning c; Critical := Critical c |}
  | FWarning, IntValue n =>
      {| PluginConfig := PluginConfig c; Host := Host c; TrustedCAFile := TrustedCAFile c;
         InsecureSkipVerify := InsecureSkipVerify c; Port := Port c;
         Timeout := Timeout c; Warning := n; Critical := Critical c |}
  | FCritical, IntValue n =>
      {| PluginConfig := PluginConfig c; Host := Host c; TrustedCAFile := TrustedCAFile c;
         InsecureSkipVerify := InsecureSkipVerify c; Port := Port c;
         Timeout := Timeout c; Warning := Warning c; Critical := n |}
  | FPort, IntValue n =>
      {| PluginConfig := PluginConfig c; Host := Host c; TrustedCAFile := TrustedCAFile c;
         InsecureSkipVerify := InsecureSkipVerify c; Port := n;
         Timeout := Timeout c; Warning := Warning c; Critical := Critical c |}
  | _, _ => c
  end.

(** The framework fills [plugin] before the callbacks run: each option
    takes the supplied value, or its [Default] when none is supplied. *)
Definition configure (a : Supplied) : Config :=
  fold_left
    (fun c o =>
       assign (Value o)
              (match supplied a (Value o) with Some v => v | None => Default o end) c)
    options plugin_init.

(** ** The order of the validation checks, as the specification words it *)

Inductive ValidationCheck :=
| HostnameGiven       (* the hostname is not empty *)
| HostnameSyntax      (* the hostname parses as a fully-qualified domain name *)
| CriticalGiven       (* criticalDays > 0 *)
| WarningGiven        (* warningDays > 0 *)
| ThresholdOrder      (* warningDays > criticalDays *)
| CAFileLoads.        (* the trusted CA file, when named, loads *)

Definition validation_order : list ValidationCheck :=
  [HostnameGiven; HostnameSyntax; CriticalGiven; WarningGiven; ThresholdOrder; CAFileLoads].

Definition check_fails (w : World) (p : Config) (c : ValidationCheck) : bool :=
  match c with
  | HostnameGiven => String.eqb (Host p) ""
  | HostnameSyntax => negb (Validator.isFQDN (Host p))
  | CriticalGiven => Critical p <=? 0
  | WarningGiven => Warning p <=? 0
  | ThresholdOrder => Warning p <=? Critical p
  | CAFileLoads =>
      negb (String.eqb (TrustedCAFile p) "")
      && match LoadCACerts w (TrustedCAFile p) with Ok _ => false | Err _ => true end
  end.

Definition reason (c : ValidationCheck) : string :=
  match c with
  | HostnameGiven => "--hostname is required"
  | HostnameSyntax => "hostname is not a valid FQDN"
  | CriticalGiven => "--critical is required"
  | WarningGiven => "--warning is required"
  | ThresholdOrder => "warning cannot be lower than Critical value"
  | CAFileLoads => "error loading specified CA file"
  end.

(** ** The severity and the days remaining, as the specification words them *)


(** [floor(hoursRemaining / 24)], [hoursRemaining] being [notAfter - now]
    in whole hours, truncated towards zero. *)
Definition spec_daysRemaining (now notAfter : Time) : Z :=
  (Z.quot (notAfter - now) Hour) / 24.

(** The line [executeCheck] prints for a severity. *)
Definition expiry_line (p : Config) (status days : Z) : string :=
  if status =? sensu.CheckStateCritical then
    "critical: cert expires in " ++ itoa days ++ " days"
  else if status =? sensu.CheckStateWarning then
    "warning: cert expires in " ++ itoa days ++ " days"
  else
    "certificate for " ++ Host p ++ ":" ++ itoa (Port p)
    ++ " expires in " ++ itoa days ++ " days" ++ newline.

(** ** Concrete runs *)

(** The process-wide variables when the process starts. *)
Definition start (p : Config) : Globals := {| plugin := p; tlsConfig := tls.zero |}.

(** The process-wide variables once validation has passed without a
    trusted CA file. *)
Definition ready (p : Config) : Globals :=
  {| plugin := p;
     tlsConfig := {| tls.RootCAs := None;
                     tls.InsecureSkipVerify := InsecureSkipVerify p |} |}.

(** The configuration of the expiry tests: verification is skipped. *)
Definition example_config (host : string) (warning critical : Z) : Config := {|
  PluginConfig := PluginConfig plugin_init;
  Host := host; TrustedCAFile := ""; InsecureSkipVerify := true;
  Port := 443; Timeout := 0; Warning := warning; Critical := critical
|}.

Definition bad_ca_config : Config := {|
  PluginConfig := PluginConfig plugin_init;
  Host := "example.com"; TrustedCAFile := "/nonexistent/ca.pem";
  InsecureSkipVerify := true;
  Port := 443; Timeout := 0; Warning := 30; Critical := 7
|}.

Definition ca_config : Config := {|
  PluginConfig := PluginConfig plugin_init;
  Host := "example.com"; TrustedCAFile := "/etc/ca.pem";
  InsecureSkipVerify := false;
  Port := 8443; Timeout := 0; Warning := 30; Critical := 7
|}.

Definition no_hostname : Supplied := {|
  given_hostname := None; given_insecure_skip_verify := None;
  given_trusted_ca_file := None; given_warning := Some 30;
  given_critical := Some 7; given_port := None
|}.

Definition leaf (notAfter : Time) : x509.Certificate :=
  {| x509.Subject := "CN=example.com"; x509.NotBefore := 0; x509.NotAfter := notAfter |}.

Definition conn_with (chain : list x509.Certificate) : tls.Conn :=
  {| tls.State := {| tls.PeerCertificates := chain |} |}.

(** A peer that presents [chain], signed by a private CA.  Unless the
    configuration skips verification, the handshake is refused when the
    leaf has expired or when no root set is configured. *)
Definition handshake (now : Time) (chain : list x509.Certificate)
    (config : tls.Config) : result tls.Conn :=
  if tls.InsecureSkipVerify config then Ok (conn_with chain)
  else
    match chain with
    | [] => Err "remote error: tls: handshake failure"
    | cert :: _ =>
        if x509.NotAfter cert <? now then
          Err "tls: failed to verify certificate: x509: certificate has expired or is not yet valid"
        else
          match tls.RootCAs config with
          | Some _ => Ok (conn_with chain)
          | None =>
              Err "tls: failed to verify certificate: x509: certificate signed by unknown authority"
          end
    end.

(** A world whose peer presents [chain], whose clock reads [now] in UTC,
    and whose only CA bundle is the file [/etc/ca.pem]. *)
Definition example_world (now : Time) (chain : list x509.Certificate) : World := {|
  LoadCACerts := fun path =>
    if String.eqb path "/etc/ca.pem" then Ok [leaf (now + 3650 * (24 * Hour))]
    else Err "Error reading CA file";
  Dial := fun _ _ config => handshake now chain config;
  Now := now;
  Local := UTC
|}.

(** The zone of New York in 2026: Eastern Standard Time, five hours
    behind UTC, until 2026-03-08T07:00:00Z, Eastern Daylight Time, four
    hours behind, until 2026-11-01T06:00:00Z, and standard time again.
    The changes of other years are left out. *)
Definition eastern_2026 : Location :=
  {| lookup := fun sec =>
       if sec <? 1772953200 then
         {| lookup_offset := - 18000;
            lookup_start := - 2 ^ 63; lookup_end := 1772953200 |}
       else if sec <? 1793512800 then
         {| lookup_offset := - 14400;
            lookup_start := 1772953200; lookup_end := 1793512800 |}
       else
         {| lookup_offset := - 18000;
            lookup_start := 1793512800; lookup_end := 2 ^ 63 - 1 |} |}.

(** The same peer and clock, on a host whose local zone is New York's. *)
Definition eastern_world (now : Time) (chain : list x509.Certificate) : World := {|
  LoadCACerts := fun _ => Err "Error reading CA file";
  Dial := fun _ _ config => handshake now chain config;
  Now := now;
  Local := eastern_2026
|}.

(** 2026-03-05T12:00:00Z, three days before the clocks of New York go
    forward. *)
Definition t1 : Time := 1772712000 * Second.

(** A world in which nothing answers. *)
Definition unreachable_world : World := {|
  LoadCACerts := fun _ => Err "Error reading CA file";
  Dial := fun _ _ _ => Err "dial tcp: lookup invalid.example.test: no such host";
  Now := 0;
  Local := UTC
|}.

(** 2025-11-26T00:00:00Z, in nanoseconds since the epoch. *)
Definition t0 : Time := 1764115200 * Second.


(** The divisor of [Hours], [60*60*1e9]. *)
Definition c_hour : Z := 3600000000000.

(** A magnitude with the sign of a binary64 number. *)
Definition signed (s : bool) (z : Z) : Z := if s then - z else z.

(** The dial events of a trace. *)
Definition is_dial (e : Event) : bool :=
  match e with EvDial _ _ _ => true | _ => false end.

Definition dials (t : list Event) : list Event := filter is_dial t.

(** The address [executeCheck] dials. *)
Definition dial_addr (p : Config) : string := Host p ++ ":" ++ itoa (Port p).

(** The state [checkArgs] leaves on success. *)
Definition validated (g : Globals) (roots : option x509.CertPool) : Globals :=
  {| plugin := plugin g;
     tlsConfig := {| tls.RootCAs := roots;
                     tls.InsecureSkipVerify := InsecureSkipVerify (plugin g) |} |}.

(** What [checkArgs] answers when the check [c] fails. *)
Definition refused (g : Globals) (c : ValidationCheck) (t : list Event)
  : Outcome (Z * option error) * Globals * list Event :=
  (Returned (sensu.CheckStateWarning, Some (reason c)), g, t).

(** The days [executeCheck] reports for a certificate. *)
Definition expiresInDays (now : Time) (cert : x509.Certificate) : Z :=
  Z.quot (int64_of_float (Hours (Sub (x509.NotAfter cert) now))) 24.

(** The severity [executeCheck] decides for a certificate. *)
Definition decided (loc : Location) (now : Time) (p : Config)
    (cert : x509.Certificate) : Z :=
  if After (AddDate_days loc now (Critical p)) (x509.NotAfter cert)
  then sensu.CheckStateCritical
  else if After (AddDate_days loc now (Warning p)) (x509.NotAfter cert)
  then sensu.CheckStateWarning
  else sensu.CheckStateOK.

(** ** What the callbacks do, case by case

    [Validation w g r] lists the eight ways through [checkArgs], each with
    the conditions that lead to it and the answer, state and trace it
    leaves; [Execution w g r] does the same for [executeCheck]. *)
Inductive Validation (w : World) (g : Globals)
  : Outcome (Z * option error) * Globals * list Event -> Prop :=
| V_hostname_missing :
    Host (plugin g) = "" ->
    Validation w g (refused g HostnameGiven [])
| V_hostname_syntax :
    Host (plugin g) <> "" ->
    Validator.isFQDN (Host (plugin g)) = false ->
    Validation w g (refused g HostnameSyntax [])
| V_critical_missing :
    Validator.isFQDN (Host (plugin g)) = true ->
    Critical (plugin g) <= 0 ->
    Validation w g (refused g CriticalGiven [])
| V_warning_missing :
    Validator.isFQDN (Host (plugin g)) = true ->
    0 < Critical (plugin g) ->
    Warning (plugin g) <= 0 ->
    Validation w g (refused g WarningGiven [])
| V_thresholds_inverted :
    Validator.isFQDN (Host (plugin g)) = true ->
    0 < Critical (plugin g) ->
    0 < Warning (plugin g) ->
    Warning (plugin g) <= Critical (plugin g) ->
    Validation w g (refused g ThresholdOrder [])
| V_ca_file_unreadable (err : error) :
    Validator.isFQDN (Host (plugin g)) = true ->
    0 < Critical (plugin g) < Warning (plugin g) ->
    TrustedCAFile (plugin g) <> "" ->
    LoadCACerts w (TrustedCAFile (plugin g)) = Err err ->
    Validation w g (refused g CAFileLoads [EvLoadCACerts (TrustedCAFile (plugin g))])
| V_passed_with_ca (pool : x509.CertPool) :
    Validator.isFQDN (Host (plugin g)) = true ->
    0 < Critical (plugin g) < Warning (plugin g) ->
    TrustedCAFile (plugin g) <> "" ->
    LoadCACerts w (TrustedCAFile (plugin g)) = Ok pool ->
    Validation w g
      (Returned (sensu.CheckStateOK, None), validated g (Some pool),
       [EvLoadCACerts (TrustedCAFile (plugin g))])
| V_passed :
    Validator.isFQDN (Host (plugin g)) = true ->
    0 < Critical (plugin g) < Warning (plugin g) ->
    TrustedCAFile (plugin g) = "" ->
    Validation w g
      (Returned (sensu.CheckStateOK, None),
       validated g (tls.RootCAs (tlsConfig g)), []).

(** What [executeCheck] leaves after a handshake that gave [cert] as
    leaf, for a severity [status]. *)
Definition reported (w : World) (g : Globals) (cert : x509.Certificate) (status : Z)
  : Outcome (Z * option error) * Globals * list Event :=
  (Returned (status, None), g,
   [EvDial "tcp" (dial_addr (plugin g)) (tlsConfig g);
    EvPrintf (expiry_line (plugin g) status (expiresInDays (Now w) cert));
    EvClose]).

Inductive Execution (w : World) (g : Globals)
  : Outcome (Z * option error) * Globals * list Event -> Prop :=
| X_dial_failed (err : error) :
    Dial w "tcp" (dial_addr (plugin g)) (tlsConfig g) = Err err ->
    Execution w g
      (Returned (sensu.CheckStateCritical, Some err), g,
       [EvDial "tcp" (dial_addr (plugin g)) (tlsConfig g)])
| X_no_certificate (conn : tls.Conn) :
    Dial w "tcp" (dial_addr (plugin g)) (tlsConfig g) = Ok conn ->
    tls.PeerCertificates (tls.State conn) = [] ->
    Execution w g
      (Panicked "runtime error: index out of range", g,
       [EvDial "tcp" (dial_addr (plugin g)) (tlsConfig g); EvClose])
| X_critical (conn : tls.Conn) (cert : x509.Certificate) (rest : list x509.Certificate) :
    Dial w "tcp" (dial_addr (plugin g)) (tlsConfig g) = Ok conn ->
    tls.PeerCertificates (tls.State conn) = cert :: rest ->
    x509.NotAfter cert < AddDate_days (Local w) (Now w) (Critical (plugin g)) ->
    Execution w g (reported w g cert sensu.CheckStateCritical)
| X_warning (conn : tls.Conn) (cert : x509.Certificate) (rest : list x509.Certificate) :
    Dial w "tcp" (dial_addr (plugin g)) (tlsConfig g) = Ok conn ->
    tls.PeerCertificates (tls.State conn) = cert :: rest ->
    AddDate_days (Local w) (Now w) (Critical (plugin g)) <= x509.NotAfter cert ->
    x509.NotAfter cert < AddDate_days (Local w) (Now w) (Warning (plugin g)) ->
    Execution w g (reported w g cert sensu.CheckStateWarning)
| X_ok (conn : tls.Conn) (cert : x509.Certificate) (rest : list x509.Certificate) :
    Dial w "tcp" (dial_addr (plugin g)) (tlsConfig g) = Ok conn ->
    tls.PeerCertificates (tls.State conn) = cert :: rest ->
    AddDate_days (Local w) (Now w) (Critical (plugin g)) <= x509.NotAfter cert ->
    AddDate_days (Local w) (Now w) (Warning (plugin g)) <= x509.NotAfter cert ->
    Execution w g (reported w g cert sensu.CheckStateOK).

Ltac run_stmt :=
  unfold func, bind, when, ret, return_, emit, get_plugin, get_tlsConfig,
    set_RootCAs, set_InsecureSkipVerify, corev2_LoadCACerts, tls_Dial,
    conn_Close, defer, index, Printf, panic, Errorf, Errorf_v;
  cbn -[Nat.ltb Nat.eqb String.length Z.leb Z.ltb Validator.Var String.append itoa].

(** ** Counting the effects of a run *)

Definition is_close (e : Event) : bool :=
  match e with EvClose => true | _ => false end.

Definition is_print (e : Event) : bool :=
  match e with EvPrintf _ => true | _ => false end.

Definition is_load (e : Event) : bool :=
  match e with EvLoadCACerts _ => true | _ => false end.

Definition closes (t : list Event) : nat := List.length (filter is_close t).
Definition prints (t : list Event) : nat := List.length (filter is_print t).
Definition loads (t : list Event) : nat := List.length (filter is_load t).

(** The answer of a call: its status and error, or nothing after a panic. *)
Definition answer (r : Outcome (Z * option error) * Globals * list Event)
  : Outcome (Z * option error) := fst (fst r).

(** ** What a regular expression can match

    [within ok r]: every character class of [r] holds only characters
    that satisfy [ok].  [through ok r]: every string [r] matches has a
    character that satisfies [ok] (a sufficient test, by the shape of
    [r]). *)
Definition class_within (ok : ascii -> bool) (cls : Regexp.Class) : bool :=
  forallb (fun n => implb (Regexp.in_class (ascii_of_nat n) cls) (ok (ascii_of_nat n)))
          (seq 0 256).

Fixpoint within (ok : ascii -> bool) (r : Regexp.re) : bool :=
  match r with
  | Regexp.Fail => true
  | Regexp.Eps => true
  | Regexp.Chr cls => class_within ok cls
  | Regexp.Cat r1 r2 => within ok r1 && within ok r2
  | Regexp.Star r1 => within ok r1
  | Regexp.Rep r1 _ _ => within ok r1
  | Regexp.Opt r1 => within ok r1
  end.

Fixpoint through (ok : ascii -> bool) (r : Regexp.re) : bool :=
  match r with
  | Regexp.Fail => true
  | Regexp.Eps => false
  | Regexp.Chr cls => class_within ok cls
  | Regexp.Cat r1 r2 => through ok r1 || through ok r2
  | Regexp.Star _ => false
  | Regexp.Rep r1 lo _ => negb (Nat.eqb lo 0) && through ok r1
  | Regexp.Opt _ => false
  end.

(** The characters a hostname may be made of: letters, digits, the
    hyphen and the dot. *)
Definition hostname_char (c : ascii) : bool :=
  Regexp.in_class c Validator.alnum_hyphen || Ascii.eqb c ".".

Definition is_dot (c : ascii) : bool := Ascii.eqb c ".".

(** ** The helpers of the test suite *)
Module TestHelpers.

Definition len (s : string) : Z := Z.of_nat (String.length s).

(** [s[i:j]]; [None] stands for the run-time panic on bounds out of
    range. *)
Definition slice (s : string) (i j : Z) : option string :=
  if (0 <=? i) && (i <=? j) && (j <=? len s)
  then Some (substring (Z.to_nat i) (Z.to_nat (j - i)) s)
  else None.

(** The body of the loop of [findSubstring], for the [n] values of [i]
    from [i] on that meet the loop condition. *)
Fixpoint findSubstring_loop (n : nat) (i : Z) (s substr : string) : option bool :=
  match n with
  | O => Some false
  | S n' =>
      match slice s i (i + len substr) with
      | None => None
      | Some piece =>
          if String.eqb piece substr then Some true
          else findSubstring_loop n' (i + 1) s substr
      end
  end.

(** [for i := 0; i <= len(s)-len(substr); i++]: the bound is a signed
    integer, so the loop does not run when [substr] is the longer. *)
Definition findSubstring (s substr : string) : option bool :=
  findSubstring_loop (Z.to_nat (len s - len substr + 1)) 0 s substr.

Definition contains (s substr : string) : option bool :=
  if len substr <=? len s then
    if String.eqb s substr then Some true
    else if len substr =? 0 then Some true
    else if (0 <? len s) && (0 <? len substr) then findSubstring s substr
    else Some false
  else Some false.

End TestHelpers.

(** [substr] occurs in [s]. *)
Definition occurs (substr s : string) : Prop :=
  exists pre post, s = pre ++ substr ++ post.

(** ** Further concrete runs *)

Definition full_invocation : Supplied := {|
  given_hostname := Some "example.com"; given_insecure_skip_verify := None;
  given_trusted_ca_file := None; given_warning := Some 30;
  given_critical := Some 7; given_port := None
|}.

Definition no_thresholds : Supplied := {|
  given_hostname := Some "example.com"; given_insecure_skip_verify := None;
  given_trusted_ca_file := None; given_warning := None;
  given_critical := None; given_port := None
|}.

Definition odd_port_config : Config := {|
  PluginConfig := PluginConfig plugin_init;
  Host := "example.com"; TrustedCAFile := ""; InsecureSkipVerify := true;
  Port := -1; Timeout := 5; Warning := 30; Critical := 7
|}.

(** * Properties *)

(** ** Integers and hours through binary64 *)

Lemma digits2_pos_spec (m : positive) :
  2 ^ (Zpos (digits2_pos m) - 1) <= Zpos m < 2 ^ Zpos (digits2_pos m).
Proof.
  induction m; cbn [digits2_pos].
  - rewrite Pos2Z.inj_succ, Z.pow_succ_r by lia.
    replace (Z.succ (Zpos (digits2_pos m)) - 1) with (Z.succ (Zpos (digits2_pos m) - 1)) by lia.
    rewrite Z.pow_succ_r by lia. lia.
  - rewrite Pos2Z.inj_succ, Z.pow_succ_r by lia.
    replace (Z.succ (Zpos (digits2_pos m)) - 1) with (Z.succ (Zpos (digits2_pos m) - 1)) by lia.
    rewrite Z.pow_succ_r by lia. lia.
  - cbn. lia.
Qed.

Lemma shr_1_m (mrs : shr_record) :
  0 <= shr_m mrs -> shr_m (shr_1 mrs) = shr_m mrs / 2.
Proof.
  destruct mrs as [m r s]. cbn [shr_m]. intros Hm.
  destruct m as [|[p|p|]|p]; cbn [shr_1 shr_m]; try lia.
  - reflexivity.
  - rewrite Pos2Z.inj_xI. apply Z.div_unique with 1; lia.
  - rewrite Pos2Z.inj_xO. apply Z.div_unique with 0; lia.
  - reflexivity.
Qed.

Lemma shr_1_nonneg (mrs : shr_record) :
  0 <= shr_m mrs -> 0 <= shr_m (shr_1 mrs).
Proof. intros H. rewrite shr_1_m by exact H. apply Z.div_pos; lia. Qed.

Lemma pow2_xO (p : positive) : 2 ^ Zpos p~0 = 2 ^ Zpos p * 2 ^ Zpos p.
Proof. rewrite <- Z.pow_add_r by lia. f_equal. lia. Qed.

Lemma pow2_xI (p : positive) : 2 ^ Zpos p~1 = 2 * (2 ^ Zpos p * 2 ^ Zpos p).
Proof.
  rewrite <- Z.pow_add_r, <- Z.pow_succ_r by lia. f_equal. lia.
Qed.

Lemma iter_shr_1_m (p : positive) :
  forall mrs, 0 <= shr_m mrs ->
  0 <= shr_m (iter_pos shr_1 p mrs)
  /\ shr_m (iter_pos shr_1 p mrs) = shr_m mrs / 2 ^ Zpos p.
Proof.
  induction p; intros mrs Hm; cbn [iter_pos].
  - pose proof (shr_1_nonneg mrs Hm) as H1.
    destruct (IHp (shr_1 mrs) H1) as [H2 E2].
    destruct (IHp _ H2) as [H3 E3].
    split; [exact H3|].
    assert (0 < 2 ^ Zpos p) by (apply Z.pow_pos_nonneg; lia).
    rewrite E3, E2, shr_1_m by exact Hm.
    rewrite !Z.div_div by lia.
    rewrite pow2_xI. reflexivity.
  - destruct (IHp mrs Hm) as [H2 E2].
    destruct (IHp _ H2) as [H3 E3].
    split; [exact H3|].
    assert (0 < 2 ^ Zpos p) by (apply Z.pow_pos_nonneg; lia).
    rewrite E3, E2.
    rewrite !Z.div_div by lia.
    rewrite pow2_xO. reflexivity.
  - split; [apply shr_1_nonneg, Hm|]. rewrite shr_1_m by exact Hm. reflexivity.
Qed.

(** [shr] by a non-negative amount divides the mantissa. *)
Lemma shr_m_spec (mrs : shr_record) (e n : Z) :
  0 <= shr_m mrs -> 0 <= n ->
  shr_m (fst (shr mrs e n)) = shr_m mrs / 2 ^ n /\ snd (shr mrs e n) = e + n.
Proof.
  intros Hm Hn. destruct n as [|p|p]; cbn [shr fst snd]; try lia.
  - rewrite Z.div_1_r. split; [reflexivity|lia].
  - split; [apply iter_shr_1_m, Hm|reflexivity].
Qed.

Lemma shr_record_of_loc_m (m : Z) (l : location) :
  shr_m (shr_record_of_loc m l) = m.
Proof. destruct l as [|[| |]]; reflexivity. Qed.

Lemma round_nearest_even_bounds (m : Z) (l : location) :
  m <= round_nearest_even m l <= m + 1.
Proof.
  destruct l as [|[| |]]; cbn [round_nearest_even]; try lia.
  destruct (Z.even m); lia.
Qed.

Lemma Zdigits2_spec (m : Z) : 0 < m ->
  2 ^ (Zdigits2 m - 1) <= m < 2 ^ Zdigits2 m.
Proof. destruct m; try lia. intros _. apply digits2_pos_spec. Qed.

Lemma Zdigits2_unique (m d : Z) :
  0 <= d -> 2 ^ (d - 1) <= m < 2 ^ d -> 0 < m -> Zdigits2 m = d.
Proof.
  intros Hd [Hlo Hhi] Hm.
  pose proof (Zdigits2_spec m Hm) as [Hlo' Hhi'].
  assert (0 < Zdigits2 m) by (destruct m; cbn; lia).
  destruct (Z.lt_trichotomy (Zdigits2 m) d) as [Hlt|[Heq|Hgt]]; [|exact Heq|].
  - assert (2 ^ Zdigits2 m <= 2 ^ (d - 1)) by (apply Z.pow_le_mono_r; lia). lia.
  - assert (2 ^ d <= 2 ^ (Zdigits2 m - 1)) by (apply Z.pow_le_mono_r; lia). lia.
Qed.

Lemma fexp_normal (d e : Z) :
  -1021 <= d + e -> fexp prec emax (d + e) - e = d - 53.
Proof. intros H. unfold fexp, emin, prec, emax. lia. Qed.

Lemma binary_round_aux_bounds (s : bool) (mx : positive) (ex : Z) (lx : location) :
  53 <= Zpos (digits2_pos mx) ->
  -1074 <= ex ->
  ex + Zpos (digits2_pos mx) <= 1023 ->
  exists m' j,
    binary_round_aux prec emax s (Zpos mx) ex lx = S754_finite s m' (ex + j)
    /\ Zpos (digits2_pos mx) - 53 <= j <= Zpos (digits2_pos mx) - 52
    /\ Zpos mx / 2 ^ j <= Zpos m' <= Zpos mx / 2 ^ j + 1.
Proof.
  intros Hd Hex Hhi.
  set (k := Zpos (digits2_pos mx) - 53).
  assert (Hk : 0 <= k) by (unfold k; lia).
  assert (Hpk : 0 < 2 ^ k) by (apply Z.pow_pos_nonneg; lia).
  pose proof (digits2_pos_spec mx) as [Hlo Hup].
  replace (Zpos (digits2_pos mx) - 1) with (52 + k) in Hlo by (unfold k; lia).
  replace (Zpos (digits2_pos mx)) with (53 + k) in Hup by (unfold k; lia).
  rewrite Z.pow_add_r in Hlo, Hup by lia.
  set (m0 := Zpos mx / 2 ^ k).
  assert (Hm0 : 2 ^ 52 <= m0 < 2 ^ 53).
  { unfold m0. split.
    - apply Z.div_le_lower_bound; lia.
    - apply Z.div_lt_upper_bound; lia. }
  unfold binary_round_aux, shr_fexp.
  cbn [Zdigits2].
  rewrite fexp_normal by lia. fold k.
  destruct (shr_m_spec (shr_record_of_loc (Zpos mx) lx) ex k) as [E1 E2];
    [rewrite shr_record_of_loc_m; lia | lia |].
  destruct (shr (shr_record_of_loc (Zpos mx) lx) ex k) as [mrs' e'].
  cbn [fst snd] in E1, E2. rewrite shr_record_of_loc_m in E1. fold m0 in E1.
  subst e'. rewrite E1.
  pose proof (round_nearest_even_bounds m0 (loc_of_shr_record mrs')) as Hr.
  set (m1 := round_nearest_even m0 (loc_of_shr_record mrs')) in *.
  assert (Hm1 : 0 < m1) by lia.
  set (k2 := Zdigits2 m1 - 53).
  assert (Hk2 : (k2 = 0 /\ m1 < 2 ^ 53) \/ (k2 = 1 /\ m1 = 2 ^ 53)).
  { unfold k2. destruct (Z.eq_dec m1 (2 ^ 53)) as [E|Hne].
    - right. rewrite E. split; reflexivity.
    - left. rewrite (Zdigits2_unique m1 53); lia. }
  assert (Hk2' : 0 <= k2 <= 1) by lia.
  rewrite fexp_normal by (fold k2; lia). fold k2.
  destruct (shr_m_spec (shr_record_of_loc m1 loc_Exact) (ex + k) k2) as [F1 F2];
    [rewrite shr_record_of_loc_m; lia | lia |].
  destruct (shr (shr_record_of_loc m1 loc_Exact) (ex + k) k2) as [mrs'' e''].
  cbn [fst snd] in F1, F2. rewrite shr_record_of_loc_m in F1. subst e''.
  rewrite F1.
  assert (Hm2 : 2 ^ 52 <= m1 / 2 ^ k2 <= m0 / 2 ^ k2 + 1 /\ m0 / 2 ^ k2 <= m1 / 2 ^ k2).
  { destruct Hk2 as [[E0 Hlt] | [E1' Heq]].
    - rewrite E0, !Z.div_1_r. lia.
    - rewrite E1'. change (2 ^ 1) with 2.
      assert (m0 / 2 <= m1 / 2) by (apply Z.div_le_mono; lia).
      assert (m1 / 2 <= (m0 + 1) / 2) by (apply Z.div_le_mono; lia).
      assert ((m0 + 1) / 2 <= m0 / 2 + 1)
        by (apply Z.div_le_upper_bound; [lia|]; pose proof (Z.mul_succ_div_gt m0 2); lia).
      assert (2 ^ 52 <= m1 / 2) by (apply Z.div_le_lower_bound; lia).
      lia. }
  destruct (m1 / 2 ^ k2) as [|m'|m'] eqn:Em; try lia.
  replace (ex + k + k2 <=? emax - prec) with true
    by (symmetry; apply Z.leb_le; unfold emax, prec, k; lia).
  exists m', (k + k2). rewrite Z.add_assoc.
  split; [reflexivity|]. split; [unfold k; lia|].
  rewrite Z.pow_add_r, <- Z.div_div by (try apply Z.pow_pos_nonneg; lia).
  fold m0. lia.
Qed.

Lemma digits2_pos_iter_xO (d m : positive) :
  digits2_pos (Pos.iter xO m d) = (digits2_pos m + d)%positive.
Proof.
  induction d using Pos.peano_ind.
  - cbn. lia.
  - rewrite Pos.iter_succ. cbn. rewrite IHd. lia.
Qed.

Lemma Zpos_iter_xO (d m : positive) :
  Zpos (Pos.iter xO m d) = Zpos m * 2 ^ Zpos d.
Proof.
  induction d using Pos.peano_ind.
  - cbn. lia.
  - rewrite Pos.iter_succ, Pos2Z.inj_xO, IHd, Pos2Z.inj_succ, Z.pow_succ_r by lia.
    ring.
Qed.

Lemma digits2_pos_bound (m : positive) (n : Z) :
  0 <= n -> Zpos m < 2 ^ n -> Zpos (digits2_pos m) <= n.
Proof.
  intros Hn Hm. pose proof (digits2_pos_spec m) as [Hlo _].
  destruct (Z.le_gt_cases (Zpos (digits2_pos m)) n) as [H|H]; [exact H|].
  assert (2 ^ n <= 2 ^ (Zpos (digits2_pos m) - 1)) by (apply Z.pow_le_mono_r; lia).
  lia.
Qed.

(** [shl_align] only ever scales the mantissa by a power of two. *)
Lemma shl_align_spec (m : positive) (e e' : Z) :
  e' <= e ->
  Zpos (fst (shl_align m e e')) = Zpos m * 2 ^ (e - e')
  /\ snd (shl_align m e e') = e'
  /\ Zpos (digits2_pos (fst (shl_align m e e'))) = Zpos (digits2_pos m) + (e - e').
Proof.
  intros Hle. unfold shl_align.
  destruct (e' - e) as [|d|d] eqn:E; try lia; cbn [fst snd].
  - replace (e - e') with 0 by lia. split; [lia|]. split; lia.
  - rewrite Zpos_iter_xO, digits2_pos_iter_xO.
    replace (e - e') with (Zpos d) by lia. split; [reflexivity|]. split; lia.
Qed.

Lemma shr_fexp_canonical (m : positive) (e : Z) :
  Zpos (digits2_pos m) = 53 -> -1074 <= e ->
  shr_fexp prec emax (Zpos m) e loc_Exact
  = ({| shr_m := Zpos m; shr_r := false; shr_s := false |}, e).
Proof.
  intros Hd He. unfold shr_fexp. cbn [Zdigits2].
  replace (fexp prec emax (Zpos (digits2_pos m) + e) - e) with 0
    by (unfold fexp, emin, prec, emax; lia).
  reflexivity.
Qed.

Lemma binary_round_aux_canonical (s : bool) (m : positive) (e : Z) :
  Zpos (digits2_pos m) = 53 -> -1074 <= e <= 971 ->
  binary_round_aux prec emax s (Zpos m) e loc_Exact = S754_finite s m e.
Proof.
  intros Hd He. unfold binary_round_aux.
  rewrite shr_fexp_canonical by lia.
  cbn [shr_m loc_of_shr_record shr_r shr_s round_nearest_even].
  rewrite shr_fexp_canonical by lia.
  cbn [shr_m].
  replace (e <=? emax - prec) with true
    by (symmetry; apply Z.leb_le; unfold emax, prec; lia).
  reflexivity.
Qed.

(** An integer below 2^53 in magnitude is a binary64 number. *)
Lemma binary_round_exact (s : bool) (n : positive) :
  Zpos n < 2 ^ 53 ->
  exists m e,
    binary_round prec emax s n 0 = S754_finite s m e
    /\ Zpos (digits2_pos m) = 53
    /\ e = Zpos (digits2_pos n) - 53
    /\ Zpos m = Zpos n * 2 ^ (- e).
Proof.
  intros Hn.
  pose proof (digits2_pos_bound n 53 ltac:(lia) Hn) as Hd.
  unfold binary_round.
  replace (fexp prec emax (Zpos (digits2_pos n) + 0)) with (Zpos (digits2_pos n) - 53)
    by (unfold fexp, emin, prec, emax; lia).
  destruct (shl_align_spec n 0 (Zpos (digits2_pos n) - 53)) as (Hm & He & Hdg); [lia|].
  destruct (shl_align n 0 (Zpos (digits2_pos n) - 53)) as [m e].
  cbn [fst snd] in Hm, He, Hdg. subst e.
  exists m, (Zpos (digits2_pos n) - 53).
  rewrite binary_round_aux_canonical by lia.
  split; [reflexivity|]. split; [lia|]. split; [reflexivity|].
  rewrite Hm.
  replace (0 - (Zpos (digits2_pos n) - 53)) with (- (Zpos (digits2_pos n) - 53)) by lia.
  reflexivity.
Qed.

Lemma float64_of_hour :
  float64_of_int c_hour = S754_finite false 7372800000000000 (-11).
Proof. vm_compute. reflexivity. Qed.

(** The quotient of a fraction of an hour by an hour is below one. *)
Lemma f_div_hour_lt_one (s : bool) (mn : positive) (en n : Z) :
  Zpos (digits2_pos mn) = 53 ->
  0 < n < c_hour ->
  -52 <= en <= -11 ->
  Zpos mn = n * 2 ^ (- en) ->
  exists my ey,
    f_div (S754_finite s mn en) (float64_of_int c_hour) = S754_finite s my ey
    /\ -94 <= ey <= -51
    /\ Zpos my < 2 ^ (- ey).
Proof.
  intros Hd Hn Hen Hmn.
  rewrite float64_of_hour. unfold f_div, SFdiv, SFdiv_core_binary.
  cbn [Zdigits2]. rewrite Hd.
  change (Zpos (digits2_pos 7372800000000000)) with 53.
  replace (Z.min (fexp prec emax (53 + en - (53 + -11))) (en - -11)) with (en - 42)
    by (unfold fexp, emin, prec, emax; lia).
  replace (en - -11 - (en - 42)) with 53 by lia.
  cbv iota. rewrite Z.shiftl_mul_pow2 by lia.
  pose proof (digits2_pos_spec mn) as [Hlo Hup]. rewrite Hd in Hlo, Hup.
  change (53 - 1) with 52 in Hlo.
  set (mc := 7372800000000000).
  assert (Hmc : mc = c_hour * 2 ^ 11) by reflexivity.
  pose proof (Z.div_eucl_eq (Zpos mn * 2 ^ 53) mc ltac:(unfold mc; lia)) as Heq.
  pose proof (Z.mod_pos_bound (Zpos mn * 2 ^ 53) mc ltac:(unfold mc; lia)) as Hr.
  unfold Z.modulo in Hr.
  destruct (Z.div_eucl (Zpos mn * 2 ^ 53) mc) as [q r].
  assert (Hq : 2 ^ 52 <= q < 2 ^ 54) by (unfold mc in *; lia).
  destruct q as [|q|q]; try lia.
  rewrite xorb_false_r.
  assert (Hdq : 53 <= Zpos (digits2_pos q) <= 54).
  { pose proof (digits2_pos_spec q) as [Hql Hqu]. split.
    - destruct (Z.le_gt_cases 53 (Zpos (digits2_pos q))); [assumption|].
      assert (2 ^ Zpos (digits2_pos q) <= 2 ^ 52) by (apply Z.pow_le_mono_r; lia). lia.
    - apply digits2_pos_bound; lia. }
  destruct (binary_round_aux_bounds s q (en - 42) (new_location mc r))
    as (my & j & E & Hj & Hb); [lia | lia | lia |].
  exists my, (en - 42 + j). split; [exact E|]. split; [lia|].
  (* my <= q / 2^j + 1 and (q / 2^j) * c <= (c - 1) * 2^(-ey) *)
  assert (Hpj : 0 < 2 ^ j) by (apply Z.pow_pos_nonneg; lia).
  set (P := 2 ^ (- (en - 42 + j))).
  assert (HP : 2 ^ 51 <= P) by (apply Z.pow_le_mono_r; lia).
  assert (Hsplit : 2 ^ (- en) * 2 ^ 42 = P * 2 ^ j).
  { unfold P. rewrite <- !Z.pow_add_r by lia. f_equal. lia. }
  assert (Hqc : Zpos q * c_hour <= n * (P * 2 ^ j)).
  { rewrite <- Hsplit.
    assert (Zpos q * mc <= Zpos mn * 2 ^ 53) by lia.
    rewrite Hmc, Hmn in H.
    replace (2 ^ 53) with (2 ^ 42 * 2 ^ 11) in H by reflexivity.
    assert (0 < 2 ^ 11) by reflexivity.
    apply Z.mul_le_mono_pos_r with (p := 2 ^ 11); [lia|].
    lia. }
  assert (Hdiv : Zpos q / 2 ^ j * 2 ^ j <= Zpos q).
  { pose proof (Z.mul_div_le (Zpos q) (2 ^ j) Hpj). lia. }
  assert (Hfin : (Zpos q / 2 ^ j) * c_hour <= n * P).
  { apply Z.mul_le_mono_pos_r with (p := 2 ^ j); [lia|].
    assert (0 < c_hour) by reflexivity. nia. }
  unfold c_hour in *. nia.
Qed.

Lemma shl_align_noop (m : positive) (e e' : Z) :
  e <= e' -> shl_align m e e' = (m, e).
Proof. intros H. unfold shl_align. destruct (e' - e) eqn:E; try reflexivity; lia. Qed.

Lemma cond_Zopp_add (s : bool) (a b : positive) :
  cond_Zopp s (Zpos a) + cond_Zopp s (Zpos b)
  = if s then Zneg (a + b) else Zpos (a + b).
Proof. destruct s; reflexivity. Qed.

(** Adding a fraction below one to a whole number of hours, and
    truncating, gives that number or the next. *)
Lemma f_add_fraction (s : bool) (mh : positive) (eh h : Z) (my : positive) (ey : Z) :
  Zpos (digits2_pos mh) = 53 ->
  0 < h < 2 ^ 22 ->
  -52 <= eh <= -31 ->
  Zpos mh = h * 2 ^ (- eh) ->
  -94 <= ey <= -51 ->
  Zpos my < 2 ^ (- ey) ->
  exists a,
    int64_of_float (f_add (S754_finite s mh eh) (S754_finite s my ey))
    = (if s then - a else a)
    /\ h <= a <= h + 1.
Proof.
  intros Hd Hh Heh Hmh Hey Hmy.
  unfold f_add, SFadd.
  set (ez := Z.min eh ey).
  assert (Hez : -94 <= ez <= -51) by (unfold ez; lia).
  destruct (shl_align_spec mh eh ez) as (Ha1 & _ & Hd1); [unfold ez; lia|].
  destruct (shl_align_spec my ey ez) as (Ha2 & _ & _); [unfold ez; lia|].
  set (a1 := fst (shl_align mh eh ez)) in *.
  set (a2 := fst (shl_align my ey ez)) in *.
  rewrite cond_Zopp_add.
  assert (Hbn : binary_normalize prec emax
                  (if s then Zneg (a1 + a2) else Zpos (a1 + a2)) ez false
                = binary_round prec emax s (a1 + a2) ez)
    by (destruct s; reflexivity).
  rewrite Hbn. clear Hbn.
  (* the exact sum, as an integer multiple of 2^ez *)
  assert (Hpz : 0 < 2 ^ (- ez)) by (apply Z.pow_pos_nonneg; lia).
  assert (E1 : Zpos a1 = h * 2 ^ (- ez)).
  { rewrite Ha1, Hmh, <- Z.mul_assoc, <- Z.pow_add_r by lia. f_equal. f_equal. lia. }
  assert (E2 : Zpos a2 < 2 ^ (- ez)).
  { rewrite Ha2.
    replace (2 ^ (- ez)) with (2 ^ (- ey) * 2 ^ (ey - ez))
      by (rewrite <- Z.pow_add_r by (unfold ez; lia); f_equal; lia).
    apply Z.mul_lt_mono_pos_r; [apply Z.pow_pos_nonneg; unfold ez; lia | exact Hmy]. }
  set (M := (a1 + a2)%positive).
  assert (EM : Zpos M = h * 2 ^ (- ez) + Zpos a2) by (unfold M; lia).
  assert (HdM : 53 <= Zpos (digits2_pos M) <= 22 - ez).
  { split.
    - pose proof (digits2_pos_spec M) as [_ Hup].
      pose proof (digits2_pos_spec a1) as [Hlo1 _].
      rewrite Hd1, Hd in Hlo1.
      assert (2 ^ 52 <= 2 ^ (53 + (eh - ez) - 1)) by (apply Z.pow_le_mono_r; unfold ez; lia).
      destruct (Z.le_gt_cases 53 (Zpos (digits2_pos M))); [assumption|].
      assert (2 ^ Zpos (digits2_pos M) <= 2 ^ 52) by (apply Z.pow_le_mono_r; lia).
      lia.
    - apply digits2_pos_bound; [lia|].
      replace (22 - ez) with (22 + - ez) by lia.
      rewrite Z.pow_add_r by lia. nia. }
  unfold binary_round.
  rewrite shl_align_noop by (unfold fexp, emin, prec, emax; lia).
  destruct (binary_round_aux_bounds s M ez loc_Exact)
    as (m' & j & E & Hj & Hb); [lia | lia | lia |].
  rewrite E. cbn [int64_of_float].
  replace (0 <=? ez + j) with false by (symmetry; apply Z.leb_gt; lia).
  exists (Zpos m' / 2 ^ (- (ez + j))). split; [reflexivity|].
  set (P := 2 ^ (- (ez + j))).
  assert (HP : 0 < P) by (apply Z.pow_pos_nonneg; lia).
  assert (Hpj : 0 < 2 ^ j) by (apply Z.pow_pos_nonneg; lia).
  assert (Hsplit : 2 ^ (- ez) = P * 2 ^ j).
  { unfold P. rewrite <- Z.pow_add_r by lia. f_equal. lia. }
  assert (Hq : Zpos M / 2 ^ j = h * P + Zpos a2 / 2 ^ j).
  { rewrite EM, Hsplit, Z.mul_assoc, Z.div_add_l by lia. reflexivity. }
  assert (Hfrac : 0 <= Zpos a2 / 2 ^ j < P).
  { split; [apply Z.div_pos; lia|].
    apply Z.div_lt_upper_bound; [lia|]. rewrite Z.mul_comm, <- Hsplit. exact E2. }
  split.
  - apply Z.div_le_lower_bound; [lia|]. nia.
  - apply Z.div_le_upper_bound; [lia|]. nia.
Qed.

Lemma float64_of_signed (s : bool) (p : positive) :
  float64_of_int (signed s (Zpos p)) = binary_round prec emax s p 0.
Proof. destruct s; reflexivity. Qed.

Lemma int64_of_float_add_zero (x : float64) :
  int64_of_float (f_add x (S754_zero false)) = int64_of_float x.
Proof. destruct x as [[|]|[|]| |[|] m e]; reflexivity. Qed.

Lemma int64_of_float_of_int (n : Z) :
  - 2 ^ 53 < n < 2 ^ 53 -> int64_of_float (float64_of_int n) = n.
Proof.
  intros Hn. unfold float64_of_int, binary_normalize.
  destruct n as [|p|p]; [reflexivity | |].
  - destruct (binary_round_exact false p) as (m & e & -> & Hd & He & Hm); [lia|].
    pose proof (digits2_pos_bound p 53 ltac:(lia) ltac:(lia)).
    cbn [int64_of_float]. rewrite Hm.
    destruct (Z.leb_spec 0 e).
    + replace e with 0 by lia. cbn. lia.
    + rewrite Z.div_mul; [reflexivity|]. apply Z.pow_nonzero; lia.
  - destruct (binary_round_exact true p) as (m & e & -> & Hd & He & Hm); [lia|].
    pose proof (digits2_pos_bound p 53 ltac:(lia) ltac:(lia)).
    cbn [int64_of_float]. rewrite Hm.
    destruct (Z.leb_spec 0 e).
    + replace e with 0 by lia. cbn. lia.
    + rewrite Z.div_mul; [lia|]. apply Z.pow_nonzero; lia.
Qed.

(** The hours of [h] whole hours and [n] nanoseconds, both of one sign. *)
Lemma Hours_magnitude (s : bool) (h n : Z) :
  0 <= h < 2 ^ 22 ->
  0 <= n < c_hour ->
  exists a,
    int64_of_float
      (f_add (float64_of_int (signed s h))
             (f_div (float64_of_int (signed s n)) (float64_of_int c_hour)))
    = signed s a
    /\ h <= a <= h + 1
    /\ (n = 0 -> a = h).
Proof.
  intros Hh Hn.
  destruct n as [|pn|pn]; try lia.
  - (* a whole number of hours *)
    exists h. replace (signed s 0) with 0 by (destruct s; reflexivity).
    replace (f_div (float64_of_int 0) (float64_of_int c_hour)) with (S754_zero false)
      by (vm_compute; reflexivity).
    rewrite int64_of_float_add_zero, int64_of_float_of_int by (destruct s; cbn; lia).
    split; [reflexivity|]. split; [lia|reflexivity].
  - rewrite (float64_of_signed s pn).
    destruct (binary_round_exact s pn) as (mn & en & -> & Hdn & Een & Hmn);
      [unfold c_hour in Hn; lia|].
    pose proof (digits2_pos_bound pn 42 ltac:(lia) ltac:(unfold c_hour in Hn; lia)) as Hd42.
    destruct (f_div_hour_lt_one s mn en (Zpos pn)) as (my & ey & -> & Hey & Hmy);
      [exact Hdn | lia | lia | exact Hmn |].
    destruct h as [|ph|ph]; try lia.
    + (* less than an hour *)
      exists 0. replace (signed s 0) with 0 by (destruct s; reflexivity).
      change (float64_of_int 0) with (S754_zero false).
      cbn [f_add SFadd int64_of_float].
      replace (0 <=? ey) with false by (symmetry; apply Z.leb_gt; lia).
      rewrite Z.div_small by lia.
      split; [destruct s; reflexivity|]. split; [lia|discriminate].
    + rewrite (float64_of_signed s ph).
      destruct (binary_round_exact s ph) as (mh & eh & -> & Hdh & Eeh & Hmh); [lia|].
      pose proof (digits2_pos_bound ph 22 ltac:(lia) ltac:(lia)) as Hd22.
      destruct (f_add_fraction s mh eh (Zpos ph) my ey) as (a & Ea & Ha);
        [exact Hdh | lia | lia | exact Hmh | exact Hey | exact Hmy |].
      exists a. split; [exact Ea|]. split; [exact Ha|discriminate].
Qed.

(** [int64(d.Hours())] is the whole hours of [d], truncated towards zero,
    or one hour further from zero. *)
Theorem Hours_truncated (d : Z) :
  - 2 ^ 63 <= d <= 2 ^ 63 - 1 ->
  (0 <= d ->
   Z.quot d Hour <= int64_of_float (Hours d) <= Z.quot d Hour + 1)
  /\ (d <= 0 ->
      Z.quot d Hour - 1 <= int64_of_float (Hours d) <= Z.quot d Hour)
  /\ (Z.rem d Hour = 0 -> int64_of_float (Hours d) = Z.quot d Hour).
Proof.
  intros Hd. unfold Hours.
  change (60 * 60 * 1000000000) with c_hour.
  pose proof (Z.quot_rem' d Hour) as Hqr.
  assert (HH : Hour = 3600000000000) by reflexivity.
  destruct (Z.le_gt_cases 0 d) as [Hpos|Hneg].
  - pose proof (Z.rem_bound_pos d Hour Hpos ltac:(lia)) as Hr.
    pose proof (Z.quot_pos d Hour Hpos ltac:(lia)) as Hq.
    destruct (Hours_magnitude false (Z.quot d Hour) (Z.rem d Hour)) as (a & Ea & Ha & Hz);
      [lia | unfold c_hour; lia |].
    cbn [signed] in Ea. rewrite Ea.
    split; [lia|]. split; [lia|]. intros H0. rewrite (Hz H0). reflexivity.
  - assert (Eq : Z.quot d Hour = - Z.quot (- d) Hour)
      by (rewrite Z.quot_opp_l, Z.opp_involutive by lia; reflexivity).
    assert (Er : Z.rem d Hour = - Z.rem (- d) Hour)
      by (rewrite Z.rem_opp_l, Z.opp_involutive by lia; reflexivity).
    pose proof (Z.rem_bound_pos (- d) Hour ltac:(lia) ltac:(lia)) as Hr.
    pose proof (Z.quot_pos (- d) Hour ltac:(lia) ltac:(lia)) as Hq.
    pose proof (Z.quot_rem' (- d) Hour) as Hqr'.
    destruct (Hours_magnitude true (Z.quot (- d) Hour) (Z.rem (- d) Hour))
      as (a & Ea & Ha & Hz); [lia | unfold c_hour; lia |].
    cbn [signed] in Ea. rewrite Eq, Er, Ea.
    split; [lia|]. split; [lia|]. intros H0. rewrite Hz; lia.
Qed.

Lemma Sub_range (t u : Time) : - 2 ^ 63 <= Sub t u <= 2 ^ 63 - 1.
Proof.
  unfold Sub.
  destruct (Z.ltb_spec (t - u) minDuration); [split; vm_compute; discriminate|].
  destruct (Z.ltb_spec maxDuration (t - u)); [split; vm_compute; discriminate|].
  unfold minDuration, maxDuration in *. lia.
Qed.

Lemma Sub_in_range (t u : Time) :
  minDuration <= t - u <= maxDuration -> Sub t u = t - u.
Proof.
  intros [Hlo Hhi]. unfold Sub.
  destruct (Z.ltb_spec (t - u) minDuration); [lia|].
  destruct (Z.ltb_spec maxDuration (t - u)); [lia|reflexivity].
Qed.

(** ** Both callbacks in closed form *)

Lemma length_zero_eqb (s : string) :
  Nat.eqb (String.length s) 0 = String.eqb s "".
Proof. destruct s; reflexivity. Qed.

Lemma length_pos_eqb (s : string) :
  Nat.ltb 0 (String.length s) = negb (String.eqb s "").
Proof. destruct s; reflexivity. Qed.

Lemma Var_isFQDN (s : string) :
  match Validator.Var s with Some _ => true | None => false end
  = negb (Validator.isFQDN s).
Proof. unfold Validator.Var. destruct (Validator.isFQDN s); reflexivity. Qed.

Lemma checkArgs_eq (w : World) (g : Globals) :
  checkArgs w g =
  let p := plugin g in
  if String.eqb (Host p) "" then refused g HostnameGiven []
  else if negb (Validator.isFQDN (Host p)) then refused g HostnameSyntax []
  else if Critical p <=? 0 then refused g CriticalGiven []
  else if Warning p <=? 0 then refused g WarningGiven []
  else if Warning p <=? Critical p then refused g ThresholdOrder []
  else if negb (String.eqb (TrustedCAFile p) "") then
    match LoadCACerts w (TrustedCAFile p) with
    | Err _ => refused g CAFileLoads [EvLoadCACerts (TrustedCAFile p)]
    | Ok pool =>
        (Returned (sensu.CheckStateOK, None), validated g (Some pool),
         [EvLoadCACerts (TrustedCAFile p)])
    end
  else (Returned (sensu.CheckStateOK, None),
        validated g (tls.RootCAs (tlsConfig g)), []).
Proof.
  unfold checkArgs, refused, validated.
  run_stmt.
  rewrite length_zero_eqb, Var_isFQDN, length_pos_eqb.
  destruct (String.eqb (Host (plugin g)) ""); cbn; [reflexivity|].
  destruct (Validator.isFQDN (Host (plugin g))); cbn; [|reflexivity].
  destruct (Critical (plugin g) <=? 0); cbn; [reflexivity|].
  destruct (Warning (plugin g) <=? 0); cbn; [reflexivity|].
  destruct (Warning (plugin g) <=? Critical (plugin g)); cbn; [reflexivity|].
  destruct (String.eqb (TrustedCAFile (plugin g)) ""); cbn; [reflexivity|].
  destruct (LoadCACerts w (TrustedCAFile (plugin g))); reflexivity.
Qed.

Lemma executeCheck_eq (w : World) (g : Globals) :
  executeCheck w g =
  let p := plugin g in
  let dial := EvDial "tcp" (dial_addr p) (tlsConfig g) in
  match Dial w "tcp" (dial_addr p) (tlsConfig g) with
  | Err err => (Returned (sensu.CheckStateCritical, Some err), g, [dial])
  | Ok conn =>
      match tls.PeerCertificates (tls.State conn) with
      | [] => (Panicked "runtime error: index out of range", g, [dial; EvClose])
      | cert :: _ =>
          (Returned (decided (Local w) (Now w) p cert, None), g,
           [dial;
            EvPrintf (expiry_line p (decided (Local w) (Now w) p cert)
                                  (expiresInDays (Now w) cert));
            EvClose])
      end
  end.
Proof.
  unfold executeCheck, decided, expiry_line, expiresInDays, dial_addr.
  run_stmt.
  destruct (Dial w "tcp" _ (tlsConfig g)) as [conn|err]; cbn; [|reflexivity].
  destruct (tls.PeerCertificates (tls.State conn)) as [|cert rest]; cbn;
    [reflexivity|].
  destruct (After (AddDate_days (Local w) (Now w) (Critical (plugin g)))
                  (x509.NotAfter cert));
    cbn; [reflexivity|].
  destruct (After (AddDate_days (Local w) (Now w) (Warning (plugin g)))
                  (x509.NotAfter cert));
    cbn; reflexivity.
Qed.

Lemma isFQDN_nonempty (s : string) :
  Validator.isFQDN s = true -> s <> "".
Proof. intros H ->. discriminate H. Qed.

(** Every call of [checkArgs] goes one of the eight ways. *)
Lemma checkArgs_Validation (w : World) (g : Globals) :
  Validation w g (checkArgs w g).
Proof.
  rewrite checkArgs_eq. cbv zeta.
  destruct (String.eqb_spec (Host (plugin g)) "") as [Hh|Hh];
    [now apply V_hostname_missing|].
  destruct (Validator.isFQDN (Host (plugin g))) eqn:Hfq; cbn [negb];
    [|now apply V_hostname_syntax].
  destruct (Z.leb_spec (Critical (plugin g)) 0) as [Hc|Hc];
    [now apply V_critical_missing|].
  destruct (Z.leb_spec (Warning (plugin g)) 0) as [Hw|Hw];
    [now apply V_warning_missing|].
  destruct (Z.leb_spec (Warning (plugin g)) (Critical (plugin g))) as [Hwc|Hwc];
    [now apply V_thresholds_inverted|].
  destruct (String.eqb_spec (TrustedCAFile (plugin g)) "") as [Hf|Hf]; cbn [negb];
    [apply V_passed; auto with zarith|].
  destruct (LoadCACerts w (TrustedCAFile (plugin g))) as [pool|err] eqn:Hl;
    [apply V_passed_with_ca | apply V_ca_file_unreadable with err];
    auto with zarith.
Qed.

(** *** [AddDate] where nothing wraps around *)

Lemma int64_small (x : Z) :
  - 9223372036854775808 <= x < 9223372036854775808 -> int64 x = x.
Proof.
  intros H. unfold int64.
  change (2 ^ 63) with 9223372036854775808.
  change (2 ^ 64) with 18446744073709551616.
  rewrite Z.mod_small; lia.
Qed.

Lemma Second_value : Second = 1000000000.
Proof. reflexivity. Qed.

Lemma Hour_value : Hour = 3600000000000.
Proof. reflexivity. Qed.

(** [Date] moves its seconds by an offset the zone has at some instant. *)
Lemma Date_zone_offset (loc : Location) (unix lo hi : Z) :
  (forall u, lo <= lookup_offset (lookup loc u) <= hi) ->
  - 86400 <= lo -> hi <= 86400 ->
  - 2 ^ 62 <= unix <= 2 ^ 62 ->
  exists o, lo <= o <= hi /\ Date_zone loc unix = unix - o.
Proof.
  intros Hz Hlo Hhi Hu. unfold Date_zone. cbv zeta.
  change (2 ^ 62) with 4611686018427387904 in Hu.
  pose proof (Hz unix) as H1.
  destruct (Z.eqb_spec (lookup_offset (lookup loc unix)) 0) as [E|E].
  - exists 0. split; lia.
  - rewrite (int64_small (unix - lookup_offset (lookup loc unix))) by lia.
    match goal with |- context [if ?b then _ else _] => destruct b end.
    + pose proof (Hz (unix - lookup_offset (lookup loc unix))) as H2.
      eexists; split; [exact H2|]. apply int64_small. lia.
    + eexists; split; [exact H1|]. apply int64_small. lia.
Qed.

(** For an instant within [2^62] nanoseconds of the epoch and at most
    [10^13] days, in a zone whose offsets stay within a day of UTC, no
    addition wraps around: [AddDate] moves the instant by [days] times
    twenty-four hours, and by the difference between the offset in use at
    the instant and an offset the zone has at some other instant. *)
Lemma AddDate_days_offset (loc : Location) (t : Time) (days lo hi : Z) :
  (forall u, lo <= lookup_offset (lookup loc u) <= hi) ->
  - 86400 <= lo -> hi <= 86400 ->
  - 2 ^ 62 <= t <= 2 ^ 62 ->
  - 10 ^ 13 <= days <= 10 ^ 13 ->
  exists o, lo <= o <= hi /\
    AddDate_days loc t days
    = t + days * (24 * Hour) + (lookup_offset (lookup loc (t / Second)) - o) * Second.
Proof.
  intros Hz Hlo Hhi Ht Hd. unfold AddDate_days. cbv zeta.
  pose proof (Z.div_mod t Second ltac:(rewrite Second_value; lia)) as Hdm.
  pose proof (Z.mod_pos_bound t Second ltac:(rewrite Second_value; lia)) as Hm.
  set (sec := t / Second) in *. set (nsec := t mod Second) in *.
  pose proof (Hz sec) as H0. set (o0 := lookup_offset (lookup loc sec)) in *.
  rewrite Hour_value. rewrite Second_value in *. unfold secondsPerDay, unixToInternal.
  change (2 ^ 62) with 4611686018427387904 in *.
  change (10 ^ 13) with 10000000000000 in *.
  assert (Hs : - 4611686019 <= sec <= 4611686019) by lia.
  rewrite (int64_small (sec + o0)) by lia.
  rewrite (int64_small (sec + o0 + _)) by lia.
  destruct (Date_zone_offset loc (sec + o0 + days * 86400) lo hi Hz Hlo Hhi)
    as (o & Ho & ->); [change (2 ^ 62) with 4611686018427387904; lia|].
  exists o. split; [exact Ho|].
  rewrite int64_small by lia.
  lia.
Qed.

(** In a zone whose offset never changes, that is [days] times
    twenty-four hours. *)
Lemma AddDate_days_fixed_offset (loc : Location) (t : Time) (days c : Z) :
  (forall u, lookup_offset (lookup loc u) = c) ->
  - 86400 <= c <= 86400 ->
  - 2 ^ 62 <= t <= 2 ^ 62 ->
  - 10 ^ 13 <= days <= 10 ^ 13 ->
  AddDate_days loc t days = t + days * (24 * Hour).
Proof.
  intros Hz Hc Ht Hd.
  assert (Hw : forall u, c <= lookup_offset (lookup loc u) <= c)
    by (intros u; rewrite Hz; lia).
  destruct (AddDate_days_offset loc t days c c Hw ltac:(lia) ltac:(lia) Ht Hd)
    as (o & Ho & ->).
  rewrite Hz. replace o with c by lia. lia.
Qed.



(** Every call of [executeCheck] goes one of the five ways. *)
Lemma executeCheck_Execution (w : World) (g : Globals) :
  Execution w g (executeCheck w g).
Proof.
  rewrite executeCheck_eq. cbv zeta.
  destruct (Dial w "tcp" (dial_addr (plugin g)) (tlsConfig g)) as [conn|err] eqn:Hd;
    [|now apply X_dial_failed].
  destruct (tls.PeerCertificates (tls.State conn)) as [|cert rest] eqn:Hc;
    [now apply X_no_certificate with conn|].
  unfold decided, After.
  destruct (Z.ltb_spec (x509.NotAfter cert)
                       (AddDate_days (Local w) (Now w) (Critical (plugin g)))) as [H1|H1];
    [now apply X_critical with conn rest|].
  destruct (Z.ltb_spec (x509.NotAfter cert)
                       (AddDate_days (Local w) (Now w) (Warning (plugin g)))) as [H2|H2];
    [now apply X_warning with conn rest | now apply X_ok with conn rest].
Qed.

(** ** Validation *)

(** C3.  With a hostname that is a valid FQDN, validation fails with the
    missing-critical reason when [criticalDays <= 0]; otherwise with the
    missing-warning reason when [warningDays <= 0]; otherwise with the
    inverted-thresholds reason exactly when [warningDays <= criticalDays],
    the equal case included, whatever the magnitude of the thresholds. *)
Theorem thresholds_validated_in_order (w : World) (g : Globals) :
  Validator.isFQDN (Host (plugin g)) = true ->
  (Critical (plugin g) <= 0 ->
     fst (fst (checkArgs w g))
     = Returned (sensu.CheckStateWarning, Some "--critical is required"))
  /\ (0 < Critical (plugin g) -> Warning (plugin g) <= 0 ->
     fst (fst (checkArgs w g))
     = Returned (sensu.CheckStateWarning, Some "--warning is required"))
  /\ (0 < Critical (plugin g) -> 0 < Warning (plugin g) ->
     (fst (fst (checkArgs w g))
      = Returned (sensu.CheckStateWarning,
                  Some "warning cannot be lower than Critical value")
      <-> Warning (plugin g) <= Critical (plugin g))).
Proof.
  intros Hfq.
  pose proof (isFQDN_nonempty _ Hfq) as Hne.
  destruct (checkArgs_Validation w g); cbn [fst refused reason];
    try contradiction; try congruence;
    (split; [|split]); intros; try lia; try reflexivity;
    (split; intros; [try discriminate; lia | try lia; reflexivity]).
Qed.

Lemma thresholds_validated_in_order_witness :
  fst (fst (checkArgs unreachable_world (start (example_config "example.com" 7 7))))
  = Returned (sensu.CheckStateWarning,
              Some "warning cannot be lower than Critical value")
  <-> 7 <= 7.
Proof.
  apply (thresholds_validated_in_order unreachable_world
           (start (example_config "example.com" 7 7))).
  - vm_compute. reflexivity.
  - cbn. lia.
  - cbn. lia.
Defined.

(** C4.  The checks run in the order hostname given, hostname syntax,
    critical threshold, warning threshold, threshold order, CA file, and
    validation stops at the first one that fails: the answer is the reason
    of the earliest failing check, and when that check comes before the
    CA-file check the file is not even read. *)
Theorem validation_stops_at_first_failure (w : World) (g : Globals) :
  fst (fst (checkArgs w g))
  = match find (check_fails w (plugin g)) validation_order with
    | Some c => Returned (sensu.CheckStateWarning, Some (reason c))
    | None => Returned (sensu.CheckStateOK, None)
    end
  /\ snd (checkArgs w g)
     = match find (check_fails w (plugin g)) validation_order with
       | Some CAFileLoads => [EvLoadCACerts (TrustedCAFile (plugin g))]
       | Some _ => []
       | None =>
           if String.eqb (TrustedCAFile (plugin g)) "" then []
           else [EvLoadCACerts (TrustedCAFile (plugin g))]
       end.
Proof.
  rewrite checkArgs_eq. cbv zeta. unfold validation_order, refused.
  cbn [find check_fails].
  destruct (String.eqb (Host (plugin g)) ""); [split; reflexivity|].
  destruct (Validator.isFQDN (Host (plugin g))); cbn [negb]; [|split; reflexivity].
  destruct (Critical (plugin g) <=? 0); [split; reflexivity|].
  destruct (Warning (plugin g) <=? 0); [split; reflexivity|].
  destruct (Warning (plugin g) <=? Critical (plugin g)); [split; reflexivity|].
  destruct (String.eqb (TrustedCAFile (plugin g)) ""); cbn [negb andb];
    [split; reflexivity|].
  destruct (LoadCACerts w (TrustedCAFile (plugin g))); split; reflexivity.
Qed.

(** C10.  On every error return of validation the process-wide state,
    the TLS configuration included, is what it was on entry: the root set
    is assigned only once the bundle has loaded and the skip-verify flag
    only once every check has passed. *)
Theorem validation_error_leaves_state (w : World) (g : Globals)
    (status : Z) (e : error) :
  fst (fst (checkArgs w g)) = Returned (status, Some e) ->
  snd (fst (checkArgs w g)) = g.
Proof.
  destruct (checkArgs_Validation w g); cbn [fst snd refused];
    intros Herr; try reflexivity; discriminate Herr.
Qed.

Lemma validation_error_leaves_state_witness :
  snd (fst (checkArgs unreachable_world (start bad_ca_config))) = start bad_ca_config.
Proof.
  apply (validation_error_leaves_state unreachable_world (start bad_ca_config)
           sensu.CheckStateWarning "error loading specified CA file").
  vm_compute. reflexivity.
Defined.

Lemma dials_of_execution (w : World) (g : Globals) :
  dials (snd (executeCheck w g))
  = [EvDial "tcp" (dial_addr (plugin g)) (tlsConfig g)].
Proof. destruct (executeCheck_Execution w g); reflexivity. Qed.

(** C2.  When validation passes, the TLS configuration it leaves carries
    the skip-verify flag of the plugin configuration and, as root set, the
    bundle loaded from the trusted CA file when one is named (otherwise
    the root set of entry, which is the nil of the zero-valued
    configuration the process starts with, that is the platform default);
    and [executeCheck] dials exactly once, with that very configuration. *)
Theorem derived_tls_config_is_dialled (w : World) (g : Globals) :
  fst (fst (checkArgs w g)) = Returned (sensu.CheckStateOK, None) ->
  tls.InsecureSkipVerify (tlsConfig (snd (fst (checkArgs w g))))
  = InsecureSkipVerify (plugin g)
  /\ (TrustedCAFile (plugin g) <> "" ->
      exists pool,
        LoadCACerts w (TrustedCAFile (plugin g)) = Ok pool
        /\ tls.RootCAs (tlsConfig (snd (fst (checkArgs w g)))) = Some pool)
  /\ (TrustedCAFile (plugin g) = "" ->
      tls.RootCAs (tlsConfig (snd (fst (checkArgs w g))))
      = tls.RootCAs (tlsConfig g))
  /\ (TrustedCAFile (plugin g) = "" -> tlsConfig g = tls.zero ->
      tls.RootCAs (tlsConfig (snd (fst (checkArgs w g)))) = None)
  /\ dials (snd (executeCheck w (snd (fst (checkArgs w g)))))
     = [EvDial "tcp" (dial_addr (plugin g))
               (tlsConfig (snd (fst (checkArgs w g))))].
Proof.
  rewrite dials_of_execution.
  destruct (checkArgs_Validation w g) as [| | | | | |pool Hfq Hth Hfile Hload|Hfq Hth Hfile];
    cbn [fst snd refused validated plugin tlsConfig
         tls.RootCAs tls.InsecureSkipVerify];
    intros Hok; try discriminate Hok.
  - (* a bundle was named and loaded *)
    repeat split; try contradiction.
    intros _. exists pool. split; [exact Hload | reflexivity].
  - (* no bundle named *)
    repeat split; try contradiction.
    intros _ ->. reflexivity.
Qed.

Lemma derived_tls_config_is_dialled_witness :
  dials (snd (executeCheck (example_world t0 [leaf (t0 + 365 * (24 * Hour))])
                (snd (fst (checkArgs (example_world t0 [leaf (t0 + 365 * (24 * Hour))])
                                     (start ca_config))))))
  = [EvDial "tcp" (dial_addr ca_config)
       (tlsConfig (snd (fst (checkArgs (example_world t0 [leaf (t0 + 365 * (24 * Hour))])
                                       (start ca_config)))))].
Proof.
  apply (derived_tls_config_is_dialled
           (example_world t0 [leaf (t0 + 365 * (24 * Hour))]) (start ca_config)).
  vm_compute. reflexivity.
Defined.



(** ** Defaults *)

Lemma configure_Host (a : Supplied) :
  Host (configure a)
  = match given_hostname a with
    | Some h => h
    | None => "http://localhost:80/"
    end.
Proof.
  destruct a as [h i t wn c p].
  destruct h, i, t, wn, c, p; reflexivity.
Qed.

Lemma default_hostname_not_fqdn :
  Validator.isFQDN "http://localhost:80/" = false.
Proof. vm_compute. reflexivity. Qed.

(** C8.  The hostname option defaults to a non-empty string that is no
    FQDN; so an invocation that supplies no hostname is refused with the
    FQDN-syntax reason, and the hostname-required reason is given exactly
    when the hostname is supplied as the empty string. *)
Theorem default_hostname_is_refused (w : World) (a : Supplied) (t : tls.Config) :
  In {| Path := "hostname"; Argument := "hostname"; Shorthand := "";
        Default := StringValue "http://localhost:80/";
        Usage := "hostname to check"; Value := FHost |} options
  /\ (given_hostname a = None ->
      checkArgs w {| plugin := configure a; tlsConfig := t |}
      = (Returned (sensu.CheckStateWarning, Some "hostname is not a valid FQDN"),
         {| plugin := configure a; tlsConfig := t |}, []))
  /\ (fst (fst (checkArgs w {| plugin := configure a; tlsConfig := t |}))
      = Returned (sensu.CheckStateWarning, Some "--hostname is required")
      <-> given_hostname a = Some "").
Proof.
  split; [left; reflexivity|].
  pose proof (configure_Host a) as Hhost.
  destruct (checkArgs_Validation w {| plugin := configure a; tlsConfig := t |})
    as [Hh|Hh Hfq|Hfq Hc|Hfq Hc Hw|Hfq Hc Hw Hwc|err Hfq Hth Hfile Hload
        |pool Hfq Hth Hfile Hload|Hfq Hth Hfile];
    cbn [plugin] in *; cbn [fst refused reason];
    try (apply isFQDN_nonempty in Hfq as Hh);
    destruct (given_hostname a) as [h|]; rewrite Hhost in *;
    (split; [intros Hnone | split; intros Hreq]);
    try discriminate; try reflexivity; try congruence;
    try (rewrite default_hostname_not_fqdn in Hfq; discriminate Hfq).
Qed.

Lemma default_hostname_is_refused_witness :
  checkArgs unreachable_world {| plugin := configure no_hostname; tlsConfig := tls.zero |}
  = (Returned (sensu.CheckStateWarning, Some "hostname is not a valid FQDN"),
     {| plugin := configure no_hostname; tlsConfig := tls.zero |}, []).
Proof.
  apply (default_hostname_is_refused unreachable_world no_hostname tls.zero).
  vm_compute. reflexivity.
Defined.

(** ** The expiry check *)

(** C9.  [executeCheck] takes element 0 of the peer's chain without
    testing its length: once the dial has succeeded it returns when the
    chain has at least one certificate, and panics with an index error
    when the chain is empty. *)
Theorem leaf_read_needs_nonempty_chain (w : World) (g : Globals) (conn : tls.Conn) :
  Dial w "tcp" (dial_addr (plugin g)) (tlsConfig g) = Ok conn ->
  (tls.PeerCertificates (tls.State conn) <> [] ->
   exists status, fst (fst (executeCheck w g)) = Returned (status, None))
  /\ (tls.PeerCertificates (tls.State conn) = [] ->
      fst (fst (executeCheck w g)) = Panicked "runtime error: index out of range").
Proof.
  intros Hdial.
  destruct (executeCheck_Execution w g)
    as [err Hd|conn' Hd Hc|conn' cert rest Hd Hc _
        |conn' cert rest Hd Hc _ _|conn' cert rest Hd Hc _ _];
    try congruence;
    assert (conn' = conn) as -> by congruence;
    (split; intros Hchain; [|try reflexivity; congruence]);
    try contradiction; eexists; reflexivity.
Qed.

Lemma leaf_read_needs_nonempty_chain_witness :
  exists status,
    fst (fst (executeCheck (example_world t0 [leaf (t0 + 15 * (24 * Hour))])
                (ready (example_config "example.com" 30 7))))
    = Returned (status, None).
Proof.
  apply (leaf_read_needs_nonempty_chain
           (example_world t0 [leaf (t0 + 15 * (24 * Hour))])
           (ready (example_config "example.com" 30 7))
           (conn_with [leaf (t0 + 15 * (24 * Hour))])).
  - reflexivity.
  - discriminate.
Defined.

(** What [executeCheck] answers once the handshake has given a leaf. *)
Lemma executeCheck_after_handshake (w : World) (g : Globals)
    (conn : tls.Conn) (cert : x509.Certificate) (rest : list x509.Certificate) :
  Dial w "tcp" (dial_addr (plugin g)) (tlsConfig g) = Ok conn ->
  tls.PeerCertificates (tls.State conn) = cert :: rest ->
  executeCheck w g = reported w g cert (decided (Local w) (Now w) (plugin g) cert).
Proof.
  intros Hd Hc. rewrite executeCheck_eq. cbv zeta. rewrite Hd, Hc. reflexivity.
Qed.







(** C5, as the code has it.  After a handshake that yields a leaf
    certificate, the line printed carries [hours / 24] truncated towards
    zero, [hours] being what [int64] makes of the [Hours()] of
    [notAfter - now]; that is [floor(hours / 24)] when [hours] is not
    negative.  [hours] is the whole hours of the difference, truncated
    towards zero, or one hour further from zero when the binary64 sum
    rounds up to the next whole hour; it is exact for a difference of a
    whole number of hours.  A certificate expiring in 47 hours is
    reported with 1 day. *)
Theorem days_remaining_truncated (w : World) (g : Globals)
    (conn : tls.Conn) (cert : x509.Certificate) (rest : list x509.Certificate) :
  Dial w "tcp" (dial_addr (plugin g)) (tlsConfig g) = Ok conn ->
  tls.PeerCertificates (tls.State conn) = cert :: rest ->
  (exists status,
      fst (fst (executeCheck w g)) = Returned (status, None)
      /\ snd (executeCheck w g)
         = [EvDial "tcp" (dial_addr (plugin g)) (tlsConfig g);
            EvPrintf (expiry_line (plugin g) status
                        (Z.quot (int64_of_float
                                   (Hours (Sub (x509.NotAfter cert) (Now w)))) 24));
            EvClose])
  /\ (0 <= int64_of_float (Hours (Sub (x509.NotAfter cert) (Now w))) ->
      Z.quot (int64_of_float (Hours (Sub (x509.NotAfter cert) (Now w)))) 24
      = int64_of_float (Hours (Sub (x509.NotAfter cert) (Now w))) / 24)
  /\ (0 <= Sub (x509.NotAfter cert) (Now w) ->
      Z.quot (Sub (x509.NotAfter cert) (Now w)) Hour
      <= int64_of_float (Hours (Sub (x509.NotAfter cert) (Now w)))
      <= Z.quot (Sub (x509.NotAfter cert) (Now w)) Hour + 1)
  /\ (Sub (x509.NotAfter cert) (Now w) <= 0 ->
      Z.quot (Sub (x509.NotAfter cert) (Now w)) Hour - 1
      <= int64_of_float (Hours (Sub (x509.NotAfter cert) (Now w)))
      <= Z.quot (Sub (x509.NotAfter cert) (Now w)) Hour)
  /\ (Z.rem (Sub (x509.NotAfter cert) (Now w)) Hour = 0 ->
      int64_of_float (Hours (Sub (x509.NotAfter cert) (Now w)))
      = Z.quot (Sub (x509.NotAfter cert) (Now w)) Hour)
  /\ (x509.NotAfter cert = Now w + 47 * Hour ->
      Z.quot (int64_of_float (Hours (Sub (x509.NotAfter cert) (Now w)))) 24 = 1).
Proof.
  intros Hd Hc.
  destruct (Hours_truncated (Sub (x509.NotAfter cert) (Now w)) (Sub_range _ _))
    as (Hpos & Hneg & Hwhole).
  split; [|split; [|split; [|split; [|split]]]].
  - exists (decided (Local w) (Now w) (plugin g) cert).
    rewrite (executeCheck_after_handshake w g conn cert rest Hd Hc).
    split; reflexivity.
  - intros Hnn. apply Z.quot_div_nonneg; lia.
  - exact Hpos.
  - exact Hneg.
  - exact Hwhole.
  - intros H47.
    assert (E : Sub (x509.NotAfter cert) (Now w) = 47 * Hour).
    { rewrite H47, Sub_in_range; [lia|].
      replace (Now w + 47 * Hour - Now w) with (47 * Hour) by lia.
      split; vm_compute; discriminate. }
    rewrite E in *. rewrite Hwhole by reflexivity. reflexivity.
Qed.

Lemma days_remaining_truncated_witness :
  Z.quot (int64_of_float (Hours (Sub (t0 + 47 * Hour) t0))) 24 = 1.
Proof.
  apply (days_remaining_truncated
           (example_world t0 [leaf (t0 + 47 * Hour)])
           (ready (example_config "example.com" 30 7))
           (conn_with [leaf (t0 + 47 * Hour)])
           (leaf (t0 + 47 * Hour)) []);
    reflexivity.
Defined.

(** C5, as it is worded, fails for a certificate that has expired: 25
    hours after [notAfter] the floor of [-25 / 24] is -2, and the check
    prints -1. *)
Lemma days_remaining_of_expired :
  spec_daysRemaining t0 (t0 - 25 * Hour) = -2
  /\ snd (executeCheck (example_world t0 [leaf (t0 - 25 * Hour)])
            (ready (example_config "example.com" 30 7)))
     = [EvDial "tcp" "example.com:443"
          {| tls.RootCAs := None; tls.InsecureSkipVerify := true |};
        EvPrintf "critical: cert expires in -1 days";
        EvClose].
Proof. split; vm_compute; reflexivity. Qed.

(** ** The runs of the test suite *)

Example expiring_in_15_days_is_warning :
  executeCheck (example_world t0 [leaf (t0 + 15 * (24 * Hour))])
               (ready (example_config "127.0.0.1" 30 7))
  = (Returned (sensu.CheckStateWarning, None),
     ready (example_config "127.0.0.1" 30 7),
     [EvDial "tcp" "127.0.0.1:443"
        {| tls.RootCAs := None; tls.InsecureSkipVerify := true |};
      EvPrintf "warning: cert expires in 15 days";
      EvClose]).
Proof. vm_compute. reflexivity. Qed.

Example expiring_in_365_days_is_ok :
  fst (fst (executeCheck (example_world t0 [leaf (t0 + 365 * (24 * Hour))])
                         (ready (example_config "127.0.0.1" 30 7))))
  = Returned (sensu.CheckStateOK, None).
Proof. vm_compute. reflexivity. Qed.

(** Without the CA bundle the private CA's certificate is refused, and
    the refusal is reported as CRITICAL with the library's text. *)
Example unknown_authority_is_critical :
  fst (fst (executeCheck (example_world t0 [leaf (t0 + 365 * (24 * Hour))])
                         (start ca_config)))
  = Returned (sensu.CheckStateCritical,
              Some "tls: failed to verify certificate: x509: certificate signed by unknown authority").
Proof. vm_compute. reflexivity. Qed.

(** One nanosecond short of 4104 hours, the binary64 sum of [Hours] is
    4104: the day count reads 171 while 171 full days have not yet
    begun. *)
Example Hours_rounds_up :
  int64_of_float (Hours (4104 * Hour - 1)) = 4104
  /\ Z.quot (4104 * Hour - 1) Hour = 4103
  /\ Z.quot (int64_of_float (Hours (4104 * Hour - 1))) 24 = 171.
Proof. repeat split; vm_compute; reflexivity. Qed.

(** A difference beyond the range of a [Duration] is clipped: a
    certificate valid until the year 9999 is reported with 106751 days. *)
Example far_future_is_clipped :
  Z.quot (int64_of_float (Hours (Sub (253402300799 * Second) t0))) 24 = 106751.
Proof. vm_compute. reflexivity. Qed.

(** ** Days that are not twenty-four hours, and thresholds that wrap *)

(** In New York, the week after 2026-03-05T12:00:00Z has 167 hours: the
    clocks go forward on the 8th.  With warning 30 and critical 7, a
    certificate that expires 167 hours and a half from now is past the
    critical bound, and the check answers WARNING with 6 days. *)
Example week_of_167_hours :
  AddDate_days eastern_2026 t1 7 = t1 + 167 * Hour
  /\ AddDate_days UTC t1 7 = t1 + 168 * Hour
  /\ executeCheck (eastern_world t1 [leaf (t1 + 167 * Hour + 30 * Minute)])
                  (ready (example_config "example.com" 30 7))
     = (Returned (sensu.CheckStateWarning, None),
        ready (example_config "example.com" 30 7),
        [EvDial "tcp" "example.com:443"
           {| tls.RootCAs := None; tls.InsecureSkipVerify := true |};
         EvPrintf "warning: cert expires in 6 days";
         EvClose]).
Proof. repeat split; vm_compute; reflexivity. Qed.

(** The week in which the clocks go back has 169 hours. *)
Example week_of_169_hours :
  AddDate_days eastern_2026 (1793275200 * Second) 7
  = 1793275200 * Second + 169 * Hour.
Proof. vm_compute. reflexivity. Qed.

(** [2^63] days are a multiple of [2^64] seconds: a threshold of
    [2^63 - 1] days leads one day back, one of [2^62] days nowhere.
    Validation accepts such thresholds. *)
Example thresholds_wrap_around :
  AddDate_days UTC t0 (2 ^ 63 - 1) = t0 - 24 * Hour
  /\ AddDate_days UTC t0 (2 ^ 62) = t0
  /\ answer (checkArgs (example_world t0 [leaf (t0 - Hour)])
               (start (example_config "example.com" (2 ^ 63 - 1) (2 ^ 63 - 2))))
     = Returned (sensu.CheckStateOK, None)
  /\ answer (executeCheck (example_world t0 [leaf (t0 - Hour)])
               (ready (example_config "example.com" (2 ^ 63 - 1) (2 ^ 63 - 2))))
     = Returned (sensu.CheckStateOK, None)
  /\ answer (executeCheck (example_world t0 [leaf (t0 - Hour)])
               (ready (example_config "example.com" 30 (2 ^ 63 - 1))))
     = Returned (sensu.CheckStateWarning, None)
  /\ answer (executeCheck (example_world t0 [leaf (t0 + 15 * (24 * Hour))])
               (ready (example_config "example.com" 30 (2 ^ 62))))
     = Returned (sensu.CheckStateWarning, None).
Proof. repeat split; vm_compute; reflexivity. Qed.

(** * Further properties *)

(** ** Validation, as a whole *)

(** X1.  Validation passes exactly when the hostname is a valid FQDN, the
    thresholds satisfy [0 < critical < warning], and the trusted CA file
    is either not named or loads; and it returns a nil error exactly
    when it returns the OK status. *)
Theorem validation_passes_exactly_when (w : World) (g : Globals) :
  (answer (checkArgs w g) = Returned (sensu.CheckStateOK, None)
   <-> Validator.isFQDN (Host (plugin g)) = true
       /\ 0 < Critical (plugin g) < Warning (plugin g)
       /\ (TrustedCAFile (plugin g) = ""
           \/ exists pool, LoadCACerts w (TrustedCAFile (plugin g)) = Ok pool))
  /\ (forall status e,
        answer (checkArgs w g) = Returned (status, e) ->
        (e = None <-> status = sensu.CheckStateOK)).
Proof.
  unfold answer. split.
  - destruct (checkArgs_Validation w g)
      as [Hh|Hh Hfq|Hfq Hc|Hfq Hc Hw|Hfq Hc Hw Hwc|err Hfq Hth Hfile Hload
          |pool Hfq Hth Hfile Hload|Hfq Hth Hfile];
      cbn [fst refused]; (split; [try discriminate|]).
    + intros (Hfq & _). rewrite Hh in Hfq. discriminate Hfq.
    + intros (Hfq' & _). congruence.
    + intros (_ & Hth & _). lia.
    + intros (_ & Hth & _). lia.
    + intros (_ & Hth & _). lia.
    + intros (_ & _ & [Hf | (pool & Hp)]); congruence.
    + intros _. split; [exact Hfq|]. split; [exact Hth|].
      right. exists pool. exact Hload.
    + reflexivity.
    + intros _. split; [exact Hfq|]. split; [exact Hth|]. left. exact Hfile.
    + reflexivity.
  - intros status e.
    destruct (checkArgs_Validation w g); cbn [fst refused];
      intros [= <- <-]; split; intros Hx; try reflexivity; discriminate Hx.
Qed.

Lemma validation_passes_exactly_when_witness :
  answer (checkArgs unreachable_world (start (example_config "example.com" 30 7)))
  = Returned (sensu.CheckStateOK, None).
Proof.
  apply (validation_passes_exactly_when unreachable_world
           (start (example_config "example.com" 30 7))).
  split; [vm_compute; reflexivity|].
  split; [cbn; lia|].
  left. reflexivity.
Defined.

(** X2.  The verdict of validation depends on the hostname, the two
    thresholds and the trusted CA file alone: the port, the timeout, the
    skip-verify flag and the TLS configuration of entry play no part, so
    no port value, negative or beyond 65535, is ever refused. *)
Theorem validation_reads_four_fields (w : World) (g g' : Globals) :
  Host (plugin g) = Host (plugin g') ->
  Critical (plugin g) = Critical (plugin g') ->
  Warning (plugin g) = Warning (plugin g') ->
  TrustedCAFile (plugin g) = TrustedCAFile (plugin g') ->
  answer (checkArgs w g) = answer (checkArgs w g')
  /\ snd (checkArgs w g) = snd (checkArgs w g').
Proof.
  intros Hh Hc Hw Hf. unfold answer.
  rewrite !checkArgs_eq. cbv zeta. rewrite <- Hh, <- Hc, <- Hw, <- Hf.
  unfold refused.
  repeat match goal with
         | |- context [if ?b then _ else _] => destruct b
         | |- context [match LoadCACerts ?w ?f with _ => _ end] =>
             destruct (LoadCACerts w f)
         end; split; reflexivity.
Qed.

Lemma validation_reads_four_fields_witness :
  answer (checkArgs unreachable_world (start odd_port_config))
  = answer (checkArgs unreachable_world (ready (example_config "example.com" 30 7)))
  /\ snd (checkArgs unreachable_world (start odd_port_config))
     = snd (checkArgs unreachable_world (ready (example_config "example.com" 30 7))).
Proof.
  apply (validation_reads_four_fields unreachable_world (start odd_port_config)
           (ready (example_config "example.com" 30 7)));
    reflexivity.
Defined.

(** X3.  Validation is idempotent: run again on the state it has left,
    it gives the same answer, the same state and the same trace. *)
Theorem validation_is_idempotent (w : World) (g : Globals) :
  checkArgs w (snd (fst (checkArgs w g))) = checkArgs w g.
Proof.
  remember (checkArgs w g) as r eqn:E.
  pose proof (checkArgs_Validation w g) as V. rewrite <- E in V.
  destruct V
    as [Hh|Hh Hfq|Hfq Hc|Hfq Hc Hw|Hfq Hc Hw Hwc|err Hfq Hth Hfile Hload
        |pool Hfq Hth Hfile Hload|Hfq Hth Hfile];
    cbn [fst snd refused]; try (symmetry; exact E).
  - clear E.
    destruct (checkArgs_Validation w (validated g (Some pool)))
      as [Hh'|Hh' Hfq'|Hfq' Hc'|Hfq' Hc' Hw'|Hfq' Hc' Hw' Hwc'
          |err' Hfq' Hth' Hfile' Hload'|pool' Hfq' Hth' Hfile' Hload'|Hfq' Hth' Hfile'];
      cbn [plugin validated] in *;
      pose proof (isFQDN_nonempty _ Hfq); try congruence; try lia.
    assert (pool' = pool) as -> by congruence. reflexivity.
  - clear E.
    destruct (checkArgs_Validation w (validated g (tls.RootCAs (tlsConfig g))))
      as [Hh'|Hh' Hfq'|Hfq' Hc'|Hfq' Hc' Hw'|Hfq' Hc' Hw' Hwc'
          |err' Hfq' Hth' Hfile' Hload'|pool' Hfq' Hth' Hfile' Hload'|Hfq' Hth' Hfile'];
      cbn [plugin validated] in *;
      pose proof (isFQDN_nonempty _ Hfq); try congruence; try lia.
    reflexivity.
Qed.

(** ** The expiry check, as a whole *)

(** X4.  [executeCheck] only reads the process-wide variables: whatever
    the outcome, panic included, they are as on entry, and the CA file
    is never read. *)
Theorem execution_leaves_state (w : World) (g : Globals) :
  snd (fst (executeCheck w g)) = g
  /\ loads (snd (executeCheck w g)) = 0%nat.
Proof. destruct (executeCheck_Execution w g); split; reflexivity. Qed.

(** X5.  The connection is closed exactly once after every successful
    dial, as the last effect of the call, whether the call returns or
    panics on an empty chain; after a failed dial nothing is closed. *)
Theorem connection_closed_exactly_once (w : World) (g : Globals) :
  match Dial w "tcp" (dial_addr (plugin g)) (tlsConfig g) with
  | Ok _ =>
      closes (snd (executeCheck w g)) = 1%nat
      /\ last (snd (executeCheck w g)) (EvPrintf "") = EvClose
  | Err _ => closes (snd (executeCheck w g)) = 0%nat
  end.
Proof.
  destruct (executeCheck_Execution w g)
    as [err Hd|conn Hd Hc|conn cert rest Hd Hc _
        |conn cert rest Hd Hc _ _|conn cert rest Hd Hc _ _];
    rewrite Hd; try split; reflexivity.
Qed.

(** X6.  [executeCheck] writes exactly one line when it returns a nil
    error, and nothing when the dial fails or the call panics: the text
    of a failure travels in the error alone. *)
Theorem one_line_per_verdict (w : World) (g : Globals) :
  prints (snd (executeCheck w g))
  = match answer (executeCheck w g) with
    | Returned (_, None) => 1%nat
    | _ => 0%nat
    end.
Proof. destruct (executeCheck_Execution w g); reflexivity. Qed.

Lemma decided_cases (loc : Location) (now : Time) (p : Config)
    (cert : x509.Certificate) :
  (decided loc now p cert = sensu.CheckStateCritical
   /\ x509.NotAfter cert < AddDate_days loc now (Critical p))
  \/ (decided loc now p cert = sensu.CheckStateWarning
      /\ AddDate_days loc now (Critical p) <= x509.NotAfter cert
      /\ x509.NotAfter cert < AddDate_days loc now (Warning p))
  \/ (decided loc now p cert = sensu.CheckStateOK
      /\ AddDate_days loc now (Critical p) <= x509.NotAfter cert
      /\ AddDate_days loc now (Warning p) <= x509.NotAfter cert).
Proof.
  unfold decided, After.
  destruct (Z.ltb_spec (x509.NotAfter cert) (AddDate_days loc now (Critical p)));
    [left; split; [reflexivity|assumption]|].
  destruct (Z.ltb_spec (x509.NotAfter cert) (AddDate_days loc now (Warning p)));
    [right; left | right; right]; repeat split; assumption.
Qed.

(** X7.  The severity never grows with the expiry date: at one instant,
    in one zone and under one pair of thresholds, of two leaf
    certificates the one that expires later is never judged the more
    severe. *)
Theorem severity_never_grows_with_expiry (w1 w2 : World) (g : Globals)
    (conn1 conn2 : tls.Conn) (cert1 cert2 : x509.Certificate)
    (rest1 rest2 : list x509.Certificate) :
  Now w1 = Now w2 ->
  Local w1 = Local w2 ->
  Dial w1 "tcp" (dial_addr (plugin g)) (tlsConfig g) = Ok conn1 ->
  Dial w2 "tcp" (dial_addr (plugin g)) (tlsConfig g) = Ok conn2 ->
  tls.PeerCertificates (tls.State conn1) = cert1 :: rest1 ->
  tls.PeerCertificates (tls.State conn2) = cert2 :: rest2 ->
  x509.NotAfter cert1 <= x509.NotAfter cert2 ->
  exists s1 s2,
    answer (executeCheck w1 g) = Returned (s1, None)
    /\ answer (executeCheck w2 g) = Returned (s2, None)
    /\ s2 <= s1.
Proof.
  intros Hnow Hloc Hd1 Hd2 Hc1 Hc2 Hle. unfold answer.
  rewrite (executeCheck_after_handshake w1 g conn1 cert1 rest1 Hd1 Hc1).
  rewrite (executeCheck_after_handshake w2 g conn2 cert2 rest2 Hd2 Hc2).
  exists (decided (Local w1) (Now w1) (plugin g) cert1),
         (decided (Local w2) (Now w2) (plugin g) cert2).
  split; [reflexivity|]. split; [reflexivity|].
  rewrite <- Hnow, <- Hloc.
  destruct (decided_cases (Local w1) (Now w1) (plugin g) cert1)
      as [[-> ?]|[[-> ?]|[-> ?]]];
    destruct (decided_cases (Local w1) (Now w1) (plugin g) cert2)
      as [[-> ?]|[[-> ?]|[-> ?]]];
    unfold sensu.CheckStateCritical, sensu.CheckStateWarning, sensu.CheckStateOK;
    lia.
Qed.

Lemma severity_never_grows_with_expiry_witness :
  exists s1 s2,
    answer (executeCheck (example_world t0 [leaf (t0 + 3 * (24 * Hour))])
              (ready (example_config "example.com" 30 7)))
    = Returned (s1, None)
    /\ answer (executeCheck (example_world t0 [leaf (t0 + 15 * (24 * Hour))])
                 (ready (example_config "example.com" 30 7)))
       = Returned (s2, None)
    /\ s2 <= s1.
Proof.
  apply (severity_never_grows_with_expiry
           (example_world t0 [leaf (t0 + 3 * (24 * Hour))])
           (example_world t0 [leaf (t0 + 15 * (24 * Hour))])
           (ready (example_config "example.com" 30 7))
           (conn_with [leaf (t0 + 3 * (24 * Hour))])
           (conn_with [leaf (t0 + 15 * (24 * Hour))])
           (leaf (t0 + 3 * (24 * Hour))) (leaf (t0 + 15 * (24 * Hour))) [] []);
    try reflexivity.
  vm_compute. discriminate.
Defined.



(** The days reported stay within a bound the expiry stays within. *)
Lemma expiresInDays_upper (now : Time) (cert : x509.Certificate) (k : Z) :
  0 <= k ->
  x509.NotAfter cert <= now + k * (24 * Hour) ->
  expiresInDays now cert <= k.
Proof.
  intros Hk Hlt. unfold expiresInDays.
  assert (HH : Hour = 3600000000000) by reflexivity.
  destruct (Hours_truncated (Sub (x509.NotAfter cert) now) (Sub_range _ _))
    as (Hpos & Hneg & Hwhole).
  set (d := Sub (x509.NotAfter cert) now) in *.
  set (hours := int64_of_float (Hours d)) in *.
  apply Z.quot_le_upper_bound; [lia|].
  destruct (Z.le_gt_cases d 0) as [Hd|Hd].
  - specialize (Hneg Hd).
    assert (Z.quot d Hour <= 0) by (apply Z.quot_le_upper_bound; lia).
    lia.
  - specialize (Hpos ltac:(lia)).
    assert (Hdle : d <= x509.NotAfter cert - now).
    { unfold d, Sub in *.
      destruct (Z.ltb_spec (x509.NotAfter cert - now) minDuration);
        [unfold minDuration in *; lia|].
      destruct (Z.ltb_spec maxDuration (x509.NotAfter cert - now)); lia. }
    pose proof (Z.quot_rem' d Hour) as Hqr.
    pose proof (Z.rem_bound_pos d Hour ltac:(lia) ltac:(lia)) as Hr.
    destruct (Z.eq_dec (Z.rem d Hour) 0) as [Hz|Hnz].
    + rewrite (Hwhole Hz). lia.
    + assert (Z.quot d Hour < 24 * k) by lia. lia.
Qed.

(** The days reported reach a bound the expiry reaches. *)
Lemma expiresInDays_lower (now : Time) (cert : x509.Certificate) (k : Z) :
  0 <= k <= 106751 ->
  now + k * (24 * Hour) <= x509.NotAfter cert ->
  k <= expiresInDays now cert.
Proof.
  intros Hk Hle. unfold expiresInDays.
  assert (HH : Hour = 3600000000000) by reflexivity.
  destruct (Hours_truncated (Sub (x509.NotAfter cert) now) (Sub_range _ _))
    as (Hpos & _ & _).
  set (d := Sub (x509.NotAfter cert) now) in *.
  set (hours := int64_of_float (Hours d)) in *.
  assert (Hdge : k * (24 * Hour) <= d).
  { unfold d, Sub.
    destruct (Z.ltb_spec (x509.NotAfter cert - now) minDuration);
      [unfold minDuration in *; lia|].
    destruct (Z.ltb_spec maxDuration (x509.NotAfter cert - now));
      [unfold maxDuration; lia | lia]. }
  specialize (Hpos ltac:(lia)).
  assert (24 * k <= Z.quot d Hour) by (apply Z.quot_le_lower_bound; lia).
  apply Z.quot_le_lower_bound; lia.
Qed.



(** X10.  In a zone whose offset never changes, with a clock within
    [2^62] nanoseconds of the epoch, the line printed never contradicts
    the severity: with [0 <= critical <= warning <= 106751], a CRITICAL
    answer reports at most [critical] days, a WARNING answer between
    [critical] and [warning] days, and an OK answer at least [warning]
    days. *)
Theorem reported_days_match_severity (w : World) (g : Globals)
    (conn : tls.Conn) (cert : x509.Certificate) (rest : list x509.Certificate)
    (c : Z) :
  Dial w "tcp" (dial_addr (plugin g)) (tlsConfig g) = Ok conn ->
  tls.PeerCertificates (tls.State conn) = cert :: rest ->
  offsets_within (Local w) c c ->
  - 86400 <= c <= 86400 ->
  - 2 ^ 62 <= Now w <= 2 ^ 62 ->
  0 <= Critical (plugin g) ->
  Critical (plugin g) <= Warning (plugin g) ->
  Warning (plugin g) <= 106751 ->
  exists status,
    executeCheck w g = reported w g cert status
    /\ (status = sensu.CheckStateCritical ->
        expiresInDays (Now w) cert <= Critical (plugin g))
    /\ (status = sensu.CheckStateWarning ->
        Critical (plugin g) <= expiresInDays (Now w) cert <= Warning (plugin g))
    /\ (status = sensu.CheckStateOK ->
        Warning (plugin g) <= expiresInDays (Now w) cert).
Proof.
  intros Hd Hc Hz Hcb Hnow H0 Hcw Hw.
  assert (Hfix : forall u, lookup_offset (lookup (Local w) u) = c)
    by (intros u; specialize (Hz u); lia).
  exists (decided (Local w) (Now w) (plugin g) cert).
  split; [exact (executeCheck_after_handshake w g conn cert rest Hd Hc)|].
  pose proof (decided_cases (Local w) (Now w) (plugin g) cert) as Hcases.
  rewrite !(AddDate_days_fixed_offset (Local w) (Now w) _ c Hfix Hcb Hnow)
    in Hcases by (change (10 ^ 13) with 10000000000000; lia).
  destruct Hcases as [[-> Hb]|[[-> [Hb1 Hb2]]|[-> [Hb1 Hb2]]]];
    (split; [|split]); intros Hs; try discriminate Hs.
  - apply expiresInDays_upper; lia.
  - split.
    + apply expiresInDays_lower; [lia | exact Hb1].
    + apply expiresInDays_upper; lia.
  - apply expiresInDays_lower; [lia | exact Hb2].
Qed.

Lemma reported_days_match_severity_witness :
  exists status,
    executeCheck (example_world t0 [leaf (t0 + 15 * (24 * Hour))])
                 (ready (example_config "example.com" 30 7))
    = reported (example_world t0 [leaf (t0 + 15 * (24 * Hour))])
               (ready (example_config "example.com" 30 7))
               (leaf (t0 + 15 * (24 * Hour))) status
    /\ (status = sensu.CheckStateCritical ->
        expiresInDays t0 (leaf (t0 + 15 * (24 * Hour))) <= 7)
    /\ (status = sensu.CheckStateWarning ->
        7 <= expiresInDays t0 (leaf (t0 + 15 * (24 * Hour))) <= 30)
    /\ (status = sensu.CheckStateOK ->
        30 <= expiresInDays t0 (leaf (t0 + 15 * (24 * Hour)))).
Proof.
  apply (reported_days_match_severity
           (example_world t0 [leaf (t0 + 15 * (24 * Hour))])
           (ready (example_config "example.com" 30 7))
           (conn_with [leaf (t0 + 15 * (24 * Hour))])
           (leaf (t0 + 15 * (24 * Hour))) [] 0).
  - reflexivity.
  - reflexivity.
  - intros u. simpl. lia.
  - lia.
  - vm_compute. split; discriminate.
  - vm_compute. discriminate.
  - vm_compute. discriminate.
  - vm_compute. discriminate.
Defined.

(** ** The whole invocation *)

(** What one invocation dials. *)
Lemma dials_of_main (w : World) (g : Globals) :
  dials (snd (main w g))
  = match answer (checkArgs w g) with
    | Returned (_, None) =>
        [EvDial "tcp" (dial_addr (plugin g))
                (tlsConfig (snd (fst (checkArgs w g))))]
    | _ => []
    end.
Proof.
  unfold main, answer.
  destruct (checkArgs_Validation w g)
    as [Hh|Hh Hfq|Hfq Hc|Hfq Hc Hw|Hfq Hc Hw Hwc|err Hfq Hth Hfile Hload
        |pool Hfq Hth Hfile Hload|Hfq Hth Hfile];
    cbn [fst snd refused]; try reflexivity.
  - destruct (executeCheck_Execution w (validated g (Some pool))); reflexivity.
  - destruct (executeCheck_Execution w (validated g (tls.RootCAs (tlsConfig g))));
      reflexivity.
Qed.

(** X11.  One invocation dials at most once, and never retries: exactly
    once, with the configuration validation has left, when validation
    passes, and not at all when it fails; the CA file is read at most
    once, and the connection is closed as often as the dial succeeds. *)
Theorem main_dials_at_most_once (w : World) (g : Globals) :
  dials (snd (main w g))
  = match answer (checkArgs w g) with
    | Returned (_, None) =>
        [EvDial "tcp" (dial_addr (plugin g))
                (tlsConfig (snd (fst (checkArgs w g))))]
    | _ => []
    end
  /\ (loads (snd (main w g)) <= 1)%nat
  /\ (closes (snd (main w g)) <= 1)%nat.
Proof.
  split; [apply dials_of_main|].
  unfold main.
  destruct (checkArgs_Validation w g)
    as [Hh|Hh Hfq|Hfq Hc|Hfq Hc Hw|Hfq Hc Hw Hwc|err Hfq Hth Hfile Hload
        |pool Hfq Hth Hfile Hload|Hfq Hth Hfile];
    cbn [fst snd refused]; try (split; cbn; lia).
  - destruct (executeCheck_Execution w (validated g (Some pool)));
      split; cbn; lia.
  - destruct (executeCheck_Execution w (validated g (tls.RootCAs (tlsConfig g))));
      split; cbn; lia.
Qed.

Lemma configure_fields (a : Supplied) :
  configure a
  = {| PluginConfig := PluginConfig plugin_init;
       Host := match given_hostname a with
               | Some h => h
               | None => "http://localhost:80/"
               end;
       TrustedCAFile := match given_trusted_ca_file a with
                        | Some f => f
                        | None => ""
                        end;
       InsecureSkipVerify := match given_insecure_skip_verify a with
                             | Some b => b
                             | None => false
                             end;
       Port := match given_port a with Some p => p | None => 443 end;
       Timeout := 0;
       Warning := match given_warning a with Some n => n | None => 0 end;
       Critical := match given_critical a with Some n => n | None => 0 end |}.
Proof.
  destruct a as [h i t wn c p].
  destruct h, i, t, wn, c, p; reflexivity.
Qed.

(** X12.  An invocation that supplies a valid hostname and thresholds
    with [0 < critical < warning], and names no CA file, dials that
    hostname on the supplied port, or on 443 when none is supplied, with
    the platform's root set and with verification on unless the
    skip-verify flag is supplied as true. *)
Theorem invocation_dials_host_and_port (w : World) (a : Supplied)
    (h : string) (c wn : Z) :
  given_hostname a = Some h ->
  Validator.isFQDN h = true ->
  given_critical a = Some c ->
  given_warning a = Some wn ->
  0 < c < wn ->
  given_trusted_ca_file a = None ->
  dials (snd (main w (start (configure a))))
  = [EvDial "tcp"
       (h ++ ":" ++ itoa (match given_port a with Some p => p | None => 443 end))
       {| tls.RootCAs := None;
          tls.InsecureSkipVerify :=
            match given_insecure_skip_verify a with
            | Some b => b
            | None => false
            end |}].
Proof.
  intros Hh Hfq Hc Hw Hth Hf.
  rewrite dials_of_main.
  pose proof (configure_fields a) as E. rewrite Hh, Hc, Hw, Hf in E.
  pose proof (isFQDN_nonempty _ Hfq) as Hne.
  unfold answer.
  destruct (checkArgs_Validation w (start (configure a)))
    as [Hh'|Hh' Hfq'|Hfq' Hc'|Hfq' Hc' Hw'|Hfq' Hc' Hw' Hwc'
        |err Hfq' Hth' Hfile' Hload'|pool Hfq' Hth' Hfile' Hload'|Hfq' Hth' Hfile'];
    cbn [plugin start] in *; rewrite E in *;
    cbn [Host Critical Warning TrustedCAFile] in *;
    try congruence; try lia; try contradiction.
  unfold dial_addr, validated.
  cbn [fst snd plugin tlsConfig tls.RootCAs tls.zero Host Port InsecureSkipVerify].
  reflexivity.
Qed.

Lemma invocation_dials_host_and_port_witness :
  dials (snd (main (example_world t0 [leaf (t0 + 365 * (24 * Hour))])
                   (start (configure full_invocation))))
  = [EvDial "tcp" ("example.com" ++ ":" ++ itoa 443)
       {| tls.RootCAs := None; tls.InsecureSkipVerify := false |}].
Proof.
  apply (invocation_dials_host_and_port
           (example_world t0 [leaf (t0 + 365 * (24 * Hour))])
           full_invocation "example.com" 7 30);
    try reflexivity.
  split; reflexivity.
Defined.

(** The two threshold refusals, for a hostname that is a valid FQDN. *)
Lemma thresholds_validation_view (w : World) (g : Globals) :
  Validator.isFQDN (Host (plugin g)) = true ->
  (Critical (plugin g) <= 0 ->
   answer (checkArgs w g)
   = Returned (sensu.CheckStateWarning, Some "--critical is required"))
  /\ (0 < Critical (plugin g) -> Warning (plugin g) <= 0 ->
      answer (checkArgs w g)
      = Returned (sensu.CheckStateWarning, Some "--warning is required")).
Proof.
  intros Hfq. pose proof (isFQDN_nonempty _ Hfq) as Hne. unfold answer.
  destruct (checkArgs_Validation w g); cbn [fst refused reason];
    try contradiction; try congruence;
    split; intros; try lia; reflexivity.
Qed.

(** X13.  The two thresholds have no default: an invocation with a valid
    hostname that leaves out the critical threshold is refused for it,
    whatever else it supplies, and one that gives a positive critical
    threshold but leaves out the warning threshold is refused for that. *)
Theorem omitted_thresholds_are_refused (w : World) (a : Supplied)
    (t : tls.Config) (h : string) :
  given_hostname a = Some h ->
  Validator.isFQDN h = true ->
  (given_critical a = None ->
   answer (checkArgs w {| plugin := configure a; tlsConfig := t |})
   = Returned (sensu.CheckStateWarning, Some "--critical is required"))
  /\ (forall c, given_critical a = Some c -> 0 < c ->
      given_warning a = None ->
      answer (checkArgs w {| plugin := configure a; tlsConfig := t |})
      = Returned (sensu.CheckStateWarning, Some "--warning is required")).
Proof.
  intros Hh Hfq.
  pose proof (configure_fields a) as E.
  assert (EH : Host (configure a) = h) by (rewrite E, Hh; reflexivity).
  assert (EC : Critical (configure a)
               = match given_critical a with Some n => n | None => 0 end)
    by (rewrite E; reflexivity).
  assert (EW : Warning (configure a)
               = match given_warning a with Some n => n | None => 0 end)
    by (rewrite E; reflexivity).
  destruct (thresholds_validation_view w {| plugin := configure a; tlsConfig := t |})
    as (Hcrit & Hwarn).
  { cbn [plugin]. rewrite EH. exact Hfq. }
  cbn [plugin] in Hcrit, Hwarn.
  split.
  - intros Hc. apply Hcrit. rewrite EC, Hc. lia.
  - intros c Hc Hpos Hw. apply Hwarn; [rewrite EC, Hc | rewrite EW, Hw]; lia.
Qed.

Lemma omitted_thresholds_are_refused_witness :
  answer (checkArgs unreachable_world
            {| plugin := configure no_thresholds; tlsConfig := tls.zero |})
  = Returned (sensu.CheckStateWarning, Some "--critical is required").
Proof.
  apply (omitted_thresholds_are_refused unreachable_world no_thresholds
           tls.zero "example.com");
    vm_compute; reflexivity.
Defined.

(** ** The hostnames validation lets through *)

Import Regexp.

Lemma class_within_sound (ok : ascii -> bool) (cls : Class) (c : ascii) :
  class_within ok cls = true -> in_class c cls = true -> ok c = true.
Proof.
  unfold class_within. rewrite forallb_forall. intros H Hin.
  specialize (H (nat_of_ascii c)).
  rewrite ascii_nat_embedding, Hin in H. apply H.
  apply in_seq. pose proof (nat_ascii_bounded c). lia.
Qed.

Lemma within_cat (ok : ascii -> bool) (a b : re) :
  within ok a = true -> within ok b = true -> within ok (cat a b) = true.
Proof.
  intros Ha Hb. destruct a, b; cbn [cat within] in *;
    try reflexivity; try assumption; rewrite ?Ha, ?Hb; reflexivity.
Qed.

Lemma within_deriv (ok : ascii -> bool) (c : ascii) (r : re) :
  within ok r = true -> Forall (fun d => within ok d = true) (deriv c r).
Proof.
  induction r; cbn [deriv within]; intros H.
  - constructor.
  - constructor.
  - destruct (in_class c cls); repeat constructor.
  - apply andb_true_iff in H as [H1 H2].
    apply Forall_app. split.
    + apply Forall_map. eapply Forall_impl; [|apply IHr1, H1].
      intros d Hd. apply within_cat; assumption.
    + destruct (nullable r1); [apply IHr2, H2 | constructor].
  - apply Forall_map. eapply Forall_impl; [|apply IHr, H].
    intros d Hd. apply within_cat; assumption.
  - destruct hi; [constructor|].
    apply Forall_map. eapply Forall_impl; [|apply IHr, H].
    intros d Hd. apply within_cat; assumption.
  - apply IHr, H.
Qed.

Lemma deriv_outside (ok : ascii -> bool) (c : ascii) (r : re) :
  within ok r = true -> ok c = false -> deriv c r = [].
Proof.
  intros Hr Hc. induction r; cbn [deriv within] in *; try reflexivity.
  - destruct (in_class c cls) eqn:E; [|reflexivity].
    rewrite (class_within_sound ok cls c Hr E) in Hc. discriminate.
  - apply andb_true_iff in Hr as [H1 H2].
    rewrite (IHr1 H1), (IHr2 H2). destruct (nullable r1); reflexivity.
  - rewrite (IHr Hr). reflexivity.
  - destruct hi; [reflexivity|]. rewrite (IHr Hr). reflexivity.
  - apply IHr, Hr.
Qed.

Lemma Forall_insert_re (P : re -> Prop) (r : re) (l : list re) :
  P r -> Forall P l -> Forall P (insert_re r l).
Proof.
  intros Hr Hl. induction Hl; cbn.
  - repeat constructor. exact Hr.
  - destruct (re_eqb r x); constructor; assumption.
Qed.

Lemma Forall_derivs (P : re -> Prop) (c : ascii) (rs : list re) :
  (forall r, In r rs -> Forall P (deriv c r)) -> Forall P (derivs c rs).
Proof.
  intros H. unfold derivs.
  assert (HF : Forall P (flat_map (deriv c) rs)).
  { apply Forall_flat_map. apply Forall_forall. exact H. }
  induction HF; cbn; [constructor | apply Forall_insert_re; assumption].
Qed.

Lemma run_nil (s : string) : run [] s = [].
Proof. induction s; cbn; [reflexivity | exact IHs]. Qed.

Lemma derivs_outside (ok : ascii -> bool) (c : ascii) (rs : list re) :
  Forall (fun r => within ok r = true) rs -> ok c = false -> derivs c rs = [].
Proof.
  intros Hrs Hc. unfold derivs.
  replace (flat_map (deriv c) rs) with (@nil re); [reflexivity|].
  induction Hrs; cbn; [reflexivity|].
  rewrite (deriv_outside ok c x) by assumption. exact IHHrs.
Qed.

(** A set of expressions within [ok] accepts only strings within [ok]. *)
Lemma run_within (ok : ascii -> bool) (s : string) :
  forall rs, Forall (fun r => within ok r = true) rs ->
  existsb nullable (run rs s) = true ->
  Forall (fun c => ok c = true) (list_ascii_of_string s).
Proof.
  induction s as [|c s IH]; intros rs Hrs Hacc; cbn [list_ascii_of_string].
  - constructor.
  - cbn [run] in Hacc. destruct (ok c) eqn:Hc.
    + constructor; [exact Hc|].
      apply (IH (derivs c rs)); [|exact Hacc].
      apply Forall_derivs. intros r Hr. apply within_deriv.
      rewrite Forall_forall in Hrs. apply Hrs, Hr.
    + rewrite (derivs_outside ok c rs Hrs Hc), run_nil in Hacc. discriminate.
Qed.

Lemma through_not_nullable (ok : ascii -> bool) (r : re) :
  through ok r = true -> nullable r = false.
Proof.
  induction r; cbn; intros H; try discriminate; try reflexivity.
  - apply orb_true_iff in H as [H|H]; [rewrite (IHr1 H) | rewrite (IHr2 H), andb_false_r];
      reflexivity.
  - apply andb_true_iff in H as [H1 H2]. rewrite (IHr H2).
    destruct (Nat.eqb lo 0); [discriminate | reflexivity].
Qed.

Lemma through_cat (ok : ascii -> bool) (a b : re) :
  through ok a || through ok b = true -> through ok (cat a b) = true.
Proof.
  intros H. destruct a, b; cbn [cat through orb] in *;
    try reflexivity; try assumption; try discriminate.
Qed.

Lemma through_deriv (ok : ascii -> bool) (c : ascii) (r : re) :
  ok c = false -> through ok r = true ->
  Forall (fun d => through ok d = true) (deriv c r).
Proof.
  intros Hc. induction r; cbn [deriv through]; intros H.
  - constructor.
  - discriminate.
  - destruct (in_class c cls) eqn:E; [|constructor].
    rewrite (class_within_sound ok cls c H E) in Hc. discriminate.
  - apply Forall_app. apply orb_true_iff in H as [H|H].
    + split.
      * apply Forall_map. eapply Forall_impl; [|apply IHr1, H].
        intros d Hd. apply through_cat. rewrite Hd. reflexivity.
      * rewrite (through_not_nullable ok r1 H). constructor.
    + split.
      * apply Forall_map. apply Forall_forall. intros d _.
        apply through_cat. rewrite H. apply orb_true_r.
      * destruct (nullable r1); [apply IHr2, H | constructor].
  - discriminate.
  - apply andb_true_iff in H as [H1 H2].
    destruct hi; [constructor|].
    apply Forall_map. eapply Forall_impl; [|apply IHr, H2].
    intros d Hd. apply through_cat. rewrite Hd. reflexivity.
  - discriminate.
Qed.

(** A set of expressions that all go through [ok] accepts no string
    without a character of [ok]. *)
Lemma run_through (ok : ascii -> bool) (s : string) :
  forall rs, Forall (fun r => through ok r = true) rs ->
  existsb nullable (run rs s) = true ->
  existsb ok (list_ascii_of_string s) = true.
Proof.
  induction s as [|c s IH]; intros rs Hrs Hacc; cbn [list_ascii_of_string existsb].
  - cbn [run] in Hacc. exfalso.
    apply existsb_exists in Hacc as (r & Hin & Hn).
    rewrite Forall_forall in Hrs.
    rewrite (through_not_nullable ok r (Hrs r Hin)) in Hn. discriminate.
  - destruct (ok c) eqn:Hc; [reflexivity|]. cbn [orb].
    apply (IH (derivs c rs)); [|exact Hacc].
    apply Forall_derivs. intros r Hr. apply through_deriv; [exact Hc|].
    rewrite Forall_forall in Hrs. apply Hrs, Hr.
Qed.

Lemma fqdn_alphabet (s : string) :
  Validator.isFQDN s = true ->
  Forall (fun c => hostname_char c = true) (list_ascii_of_string s)
  /\ In "."%char (list_ascii_of_string s).
Proof.
  unfold Validator.isFQDN. destruct (String.eqb s ""); [discriminate|].
  unfold MatchString. intros Hacc. split.
  - apply (run_within hostname_char s [Validator.fqdnRegexRFC1123]); [|exact Hacc].
    constructor; [vm_compute; reflexivity | constructor].
  - assert (H : existsb is_dot (list_ascii_of_string s) = true).
    { apply (run_through is_dot s [Validator.fqdnRegexRFC1123]); [|exact Hacc].
      constructor; [vm_compute; reflexivity | constructor]. }
    apply existsb_exists in H as (c & Hin & Hc).
    unfold is_dot in Hc. apply Ascii.eqb_eq in Hc. subst c. exact Hin.
Qed.

(** X14.  Whenever validation passes, the hostname is made of ASCII
    letters, digits, hyphens and dots only, and has at least one dot: a
    scheme, a port, a path, a space or a bare single-label name never
    reaches the dial. *)
Theorem validated_hostname_shape (w : World) (g : Globals) :
  answer (checkArgs w g) = Returned (sensu.CheckStateOK, None) ->
  Forall (fun c => hostname_char c = true) (list_ascii_of_string (Host (plugin g)))
  /\ In "."%char (list_ascii_of_string (Host (plugin g))).
Proof.
  unfold answer.
  destruct (checkArgs_Validation w g); cbn [fst refused];
    intros Hok; try discriminate Hok; apply fqdn_alphabet; assumption.
Qed.

Lemma validated_hostname_shape_witness :
  Forall (fun c => hostname_char c = true)
         (list_ascii_of_string (Host (plugin (start (example_config "example.com" 30 7)))))
  /\ In "."%char
        (list_ascii_of_string (Host (plugin (start (example_config "example.com" 30 7))))).
Proof.
  apply (validated_hostname_shape unreachable_world
           (start (example_config "example.com" 30 7))).
  vm_compute. reflexivity.
Defined.

(** ** The helpers of the test suite *)

Import TestHelpers.

Lemma length_append (a b : string) :
  String.length (a ++ b) = (String.length a + String.length b)%nat.
Proof. induction a; cbn; [reflexivity | rewrite IHa; reflexivity]. Qed.

Lemma substring_prefix (a b : string) :
  substring 0 (String.length a) (a ++ b) = a.
Proof.
  induction a as [|c a IH]; cbn.
  - destruct b; reflexivity.
  - rewrite IH. reflexivity.
Qed.

Lemma substring_skip (pre rest : string) (n : nat) :
  substring (String.length pre) n (pre ++ rest) = substring 0 n rest.
Proof. induction pre as [|c pre IH]; cbn; [reflexivity | exact IH]. Qed.

Lemma substring_at_occurrence (pre sub post : string) :
  substring (String.length pre) (String.length sub) (pre ++ sub ++ post) = sub.
Proof. rewrite substring_skip. apply substring_prefix. Qed.

Lemma substring_0_split (s : string) (n : nat) :
  (n <= String.length s)%nat ->
  exists post, s = substring 0 n s ++ post /\ String.length (substring 0 n s) = n.
Proof.
  revert s. induction n as [|n IH]; intros s Hn.
  - exists s. destruct s; split; reflexivity.
  - destruct s as [|c s]; cbn in Hn; [lia|].
    destruct (IH s) as (post & E & L); [lia|].
    exists post. cbn. split; [rewrite <- E; reflexivity | rewrite L; reflexivity].
Qed.

Lemma substring_split (s : string) (k n : nat) :
  (k + n <= String.length s)%nat ->
  exists pre post, s = pre ++ substring k n s ++ post /\ String.length pre = k.
Proof.
  revert s. induction k as [|k IH]; intros s Hk.
  - destruct (substring_0_split s n) as (post & E & _); [lia|].
    exists "", post. split; [exact E | reflexivity].
  - destruct s as [|c s]; cbn in Hk; [lia|].
    destruct (IH s) as (pre & post & E & L); [lia|].
    exists (String c pre), post. cbn. split; [rewrite <- E; reflexivity | rewrite L; reflexivity].
Qed.

Lemma slice_in_range (s : string) (i j : Z) :
  0 <= i <= j -> j <= len s ->
  slice s i j = Some (substring (Z.to_nat i) (Z.to_nat (j - i)) s).
Proof.
  intros Hi Hj. unfold slice.
  destruct (Z.leb_spec 0 i); [|lia].
  destruct (Z.leb_spec i j); [|lia].
  destruct (Z.leb_spec j (len s)); [|lia]. reflexivity.
Qed.

(** The loop over [n] positions from [i] on, all within range. *)
Lemma findSubstring_loop_spec (s substr : string) (n : nat) :
  forall i, 0 <= i ->
  ((0 < n)%nat -> i + Z.of_nat n + len substr <= len s + 1) ->
  exists b, findSubstring_loop n i s substr = Some b
    /\ (b = true <->
        exists k, i <= k < i + Z.of_nat n
                  /\ substring (Z.to_nat k) (String.length substr) s = substr).
Proof.
  induction n as [|n IH]; intros i Hi Hn.
  - exists false. split; [reflexivity|]. split; [discriminate|].
    intros (k & Hk & _). lia.
  - specialize (Hn ltac:(lia)). cbn [findSubstring_loop].
    rewrite slice_in_range by (unfold len in *; lia).
    replace (Z.to_nat (i + len substr - i)) with (String.length substr)
      by (unfold len; lia).
    destruct (String.eqb_spec (substring (Z.to_nat i) (String.length substr) s) substr)
      as [E|E].
    + exists true. split; [reflexivity|]. split; [|reflexivity].
      intros _. exists i. split; [lia | exact E].
    + destruct (IH (i + 1)) as (b & Eb & Hb); [lia | lia |].
      exists b. split; [exact Eb|]. rewrite Hb. split.
      * intros (k & Hk & Ek). exists k. split; [lia | exact Ek].
      * intros (k & Hk & Ek). exists k. split; [|exact Ek].
        destruct (Z.eq_dec k i) as [->|]; [contradiction | lia].
Qed.

Lemma findSubstring_occurs (s substr : string) :
  exists b, findSubstring s substr = Some b /\ (b = true <-> occurs substr s).
Proof.
  unfold findSubstring.
  destruct (findSubstring_loop_spec s substr (Z.to_nat (len s - len substr + 1)) 0)
    as (b & Eb & Hb); [lia | unfold len; lia |].
  exists b. split; [exact Eb|]. rewrite Hb. split.
  - intros (k & Hk & Ek).
    destruct (substring_split s (Z.to_nat k) (String.length substr))
      as (pre & post & E & _); [unfold len in *; lia|].
    exists pre, post. rewrite Ek in E. exact E.
  - intros (pre & post & ->).
    exists (Z.of_nat (String.length pre)). split.
    + unfold len. rewrite !length_append. lia.
    + rewrite Nat2Z.id. apply substring_at_occurrence.
Qed.

Lemma contains_occurs (s substr : string) :
  exists b, contains s substr = Some b /\ (b = true <-> occurs substr s).
Proof.
  unfold contains.
  destruct (Z.leb_spec (len substr) (len s)) as [Hle|Hgt].
  - destruct (String.eqb_spec s substr) as [->|Hne].
    + exists true. split; [reflexivity|]. split; [|reflexivity].
      intros _. exists "", "". cbn. 
      clear. induction substr; cbn; [reflexivity | rewrite <- IHsubstr; reflexivity].
    + destruct (Z.eqb_spec (len substr) 0) as [H0|Hn0].
      * exists true. split; [reflexivity|]. split; [|reflexivity].
        intros _. destruct substr; [|unfold len in H0; cbn in H0; lia].
        exists "", s. reflexivity.
      * replace ((0 <? len s) && (0 <? len substr)) with true.
        -- apply findSubstring_occurs.
        -- symmetry. apply andb_true_iff. unfold len in *. split; apply Z.ltb_lt; lia.
  - exists false. split; [reflexivity|]. split; [discriminate|].
    intros (pre & post & ->). unfold len in Hgt. rewrite !length_append in Hgt. lia.
Qed.

(** X15.  The two string helpers of the tests never slice out of range,
    not even when [substr] is longer than [s], and both answer true
    exactly when [substr] occurs in [s]; the empty [substr] occurs in
    every string. *)
Theorem string_helpers_decide_occurrence (s substr : string) :
  (exists b, findSubstring s substr = Some b /\ (b = true <-> occurs substr s))
  /\ (exists b, contains s substr = Some b /\ (b = true <-> occurs substr s))
  /\ contains s "" = Some true.
Proof.
  split; [apply findSubstring_occurs|]. split; [apply contains_occurs|].
  unfold contains. cbn [String.length len Z.of_nat].
  destruct (Z.leb_spec 0 (len s)); [|unfold len in *; lia].
  destruct (String.eqb s ""); reflexivity.
Qed.

(** ** What the invocation answers *)

(** X16.  An error answered at WARNING always comes from validation, and
    then nothing was dialled; an error answered at CRITICAL always comes
    from the dial, and is its text: the status alone tells a
    misconfigured check from a check that ran and failed. *)
Theorem error_status_tells_its_origin (w : World) (g : Globals)
    (status : Z) (e : error) :
  answer (main w g) = Returned (status, Some e) ->
  (status = sensu.CheckStateWarning
   /\ dials (snd (main w g)) = []
   /\ exists c, check_fails w (plugin g) c = true /\ e = reason c)
  \/ (status = sensu.CheckStateCritical
      /\ answer (checkArgs w g) = Returned (sensu.CheckStateOK, None)
      /\ Dial w "tcp" (dial_addr (plugin g)) (tlsConfig (snd (fst (checkArgs w g))))
         = Err e).
Proof.
  unfold main, answer.
  destruct (checkArgs_Validation w g)
    as [Hh|Hh Hfq|Hfq Hc|Hfq Hc Hw|Hfq Hc Hw Hwc|err Hfq Hth Hfile Hload
        |pool Hfq Hth Hfile Hload|Hfq Hth Hfile];
    cbn [fst snd refused].
  1-6: intros [= <- <-]; left; split; [reflexivity|]; split; [reflexivity|].
  - exists HostnameGiven. cbn. rewrite Hh. split; reflexivity.
  - exists HostnameSyntax. cbn. rewrite Hfq. split; reflexivity.
  - exists CriticalGiven. cbn. split; [apply Z.leb_le, Hc | reflexivity].
  - exists WarningGiven. cbn. split; [apply Z.leb_le, Hw | reflexivity].
  - exists ThresholdOrder. cbn. split; [apply Z.leb_le, Hwc | reflexivity].
  - exists CAFileLoads. cbn. rewrite Hload, andb_true_r. split; [|reflexivity].
    apply negb_true_iff, String.eqb_neq, Hfile.
  - destruct (executeCheck_Execution w (validated g (Some pool)))
      as [err Hd| | | |]; cbn [fst snd reported]; intros Hm; try discriminate Hm.
    injection Hm as <- <-. right. cbn [plugin validated] in Hd.
    split; [reflexivity|]. split; [reflexivity | exact Hd].
  - destruct (executeCheck_Execution w (validated g (tls.RootCAs (tlsConfig g))))
      as [err Hd| | | |]; cbn [fst snd reported]; intros Hm; try discriminate Hm.
    injection Hm as <- <-. right. cbn [plugin validated] in Hd.
    split; [reflexivity|]. split; [reflexivity | exact Hd].
Qed.

Lemma error_status_tells_its_origin_witness :
  (sensu.CheckStateCritical = sensu.CheckStateWarning
   /\ dials (snd (main unreachable_world (start (example_config "example.com" 30 7)))) = []
   /\ exists c,
        check_fails unreachable_world
                    (plugin (start (example_config "example.com" 30 7))) c = true
        /\ "dial tcp: lookup invalid.example.test: no such host" = reason c)
  \/ (sensu.CheckStateCritical = sensu.CheckStateCritical
      /\ answer (checkArgs unreachable_world (start (example_config "example.com" 30 7)))
         = Returned (sensu.CheckStateOK, None)
      /\ Dial unreachable_world "tcp"
              (dial_addr (plugin (start (example_config "example.com" 30 7))))
              (tlsConfig (snd (fst (checkArgs unreachable_world
                                      (start (example_config "example.com" 30 7))))))
         = Err "dial tcp: lookup invalid.example.test: no such host").
Proof.
  apply (error_status_tells_its_origin unreachable_world
           (start (example_config "example.com" 30 7))).
  vm_compute. reflexivity.
Defined.

(** X17.  Provided the handshake, when it succeeds, presents at least
    one certificate, the invocation never panics: it answers one of the
    three statuses, and the OK status never carries an error. *)
Theorem invocation_always_answers (w : World) (g : Globals) :
  match Dial w "tcp" (dial_addr (plugin g)) (tlsConfig (snd (fst (checkArgs w g)))) with
  | Ok conn => tls.PeerCertificates (tls.State conn) <> []
  | Err _ => True
  end ->
  exists status e,
    answer (main w g) = Returned (status, e)
    /\ (status = sensu.CheckStateOK \/ status = sensu.CheckStateWarning
        \/ status = sensu.CheckStateCritical)
    /\ (status = sensu.CheckStateOK -> e = None).
Proof.
  unfold main, answer.
  destruct (checkArgs_Validation w g)
    as [Hh|Hh Hfq|Hfq Hc|Hfq Hc Hw|Hfq Hc Hw Hwc|err Hfq Hth Hfile Hload
        |pool Hfq Hth Hfile Hload|Hfq Hth Hfile];
    cbn [fst snd refused]; intros Hchain.
  1-6: eexists _, _; split; [reflexivity|]; split; [right; left; reflexivity|];
       intros Hs; discriminate Hs.
  - destruct (executeCheck_Execution w (validated g (Some pool)))
      as [err Hd|conn Hd Hc|conn cert rest Hd Hc _
          |conn cert rest Hd Hc _ _|conn cert rest Hd Hc _ _];
      cbn [plugin validated] in Hd; rewrite Hd in Hchain;
      try contradiction; cbn [fst snd reported];
      eexists _, _; (split; [reflexivity|]); (split; [|intros Hs]);
      try discriminate Hs; try reflexivity; auto.
  - destruct (executeCheck_Execution w (validated g (tls.RootCAs (tlsConfig g))))
      as [err Hd|conn Hd Hc|conn cert rest Hd Hc _
          |conn cert rest Hd Hc _ _|conn cert rest Hd Hc _ _];
      cbn [plugin validated] in Hd; rewrite Hd in Hchain;
      try contradiction; cbn [fst snd reported];
      eexists _, _; (split; [reflexivity|]); (split; [|intros Hs]);
      try discriminate Hs; try reflexivity; auto.
Qed.

Lemma invocation_always_answers_witness :
  exists status e,
    answer (main (example_world t0 [leaf (t0 + 15 * (24 * Hour))])
                 (start (example_config "example.com" 30 7)))
    = Returned (status, e)
    /\ (status = sensu.CheckStateOK \/ status = sensu.CheckStateWarning
        \/ status = sensu.CheckStateCritical)
    /\ (status = sensu.CheckStateOK -> e = None).
Proof.
  apply (invocation_always_answers
           (example_world t0 [leaf (t0 + 15 * (24 * Hour))])
           (start (example_config "example.com" 30 7))).
  vm_compute. discriminate.
Defined.
